(** * File version manager: a shallow embedding of [manager.py]

    The development models [FileVersionHandler] of [manager.py]: the
    compilation of variant patterns ([prepare_patterns]), the event entry
    points ([on_created], [on_moved]), the debounced dispatcher
    ([process_file_event]), the match resolver ([check_file_match]) and the
    versioning engine ([version_files]).

    Modelling choices.
    - A Python [str] is a [string]; a character is a code point below 256.
      On that range the class [\d] of [re] is exactly the digits 0 to 9.
    - [time.time()] yields a binary64 float: timestamps are primitive
      floats, and the cooldown test is the float subtraction and comparison
      of the source.
    - The file system is a finite map from paths to file contents: regular
      files on one volume.  Directories are not part of it, so the results
      speak of runs in which every path the handler touches is vacant or a
      regular file; the [shutil.Error]s that [shutil.move] raises on
      directories are outside that domain.
    - The operating system may refuse to rename, remove, create or
      overwrite some paths (no permission, file in use); such a file can
      still be read.  [shutil.move] is modelled as [shutil.py] has it:
      [os.rename] first, and when that is refused the fallback copies the
      source to the destination and then fails to remove the source, so a
      failed move can leave a copy behind.
    - Effects are threaded through a state-and-exception monad: a raised
      exception keeps the mutations done before it, as in Python.
    - The clock ([time.time()], [datetime.now()]) is read by the caller and
      passed as an argument. *)

From Stdlib Require Import Floats Ascii.
From stdpp Require Import gmap strings pretty.

(** * Python string methods *)

Module PyStr.

Fixpoint length (s : string) : nat :=
  match s with
  | EmptyString => 0
  | String _ s' => S (length s')
  end.

(** [removeprefix]-like helper: [Some rest] when [s = p ++ rest]. *)
Fixpoint strip_prefix (p s : string) : option string :=
  match p, s with
  | EmptyString, _ => Some s
  | String a p', String b s' =>
      if decide (a = b) then strip_prefix p' s' else None
  | String _ _, EmptyString => None
  end.

(** [s.startswith(p)] *)
Definition startswith (s p : string) : bool :=
  match strip_prefix p s with
  | Some _ => true
  | None => false
  end.

(** [s.endswith(p)] *)
Fixpoint endswith (s p : string) : bool :=
  if decide (s = p) then true
  else match s with
       | EmptyString => false
       | String _ s' => endswith s' p
       end.

(** [s.rstrip(c)] for a single character *)
Fixpoint rstrip (c : ascii) (s : string) : string :=
  match s with
  | EmptyString => EmptyString
  | String a s' =>
      match rstrip c s' with
      | EmptyString => if decide (a = c) then EmptyString else String a EmptyString
      | r => String a r
      end
  end.

(** [s.split(sep)] for a single character separator *)
Fixpoint split (sep : ascii) (s : string) : list string :=
  match s with
  | EmptyString => [EmptyString]
  | String a s' =>
      let r := split sep s' in
      if decide (a = sep) then EmptyString :: r
      else match r with
           | x :: xs => String a x :: xs
           | [] => [String a EmptyString]
           end
  end.

(** [sep.join(l)] *)
Fixpoint join (sep : string) (l : list string) : string :=
  match l with
  | [] => ""
  | [x] => x
  | x :: xs => x +:+ sep +:+ join sep xs
  end.

(** [c * n] *)
Fixpoint repeat (c : ascii) (n : nat) : string :=
  match n with
  | 0 => ""
  | S n' => String c (repeat c n')
  end.

(** [(s[:i], s[i:])] for [i = s.rfind(c) + 1] *)
Fixpoint rpartition_after (c : ascii) (s : string) : string * string :=
  match s with
  | EmptyString => ("", "")
  | String a s' =>
      match rpartition_after c s' with
      | (EmptyString, t) =>
          if decide (a = c) then (String a "", t) else ("", String a t)
      | (h, t) => (String a h, t)
      end
  end.

(** [Some (s[:i], s[i:])] for [i = s.rfind(c)], [None] when [c] is absent *)
Fixpoint rpartition_at (c : ascii) (s : string) : option (string * string) :=
  match s with
  | EmptyString => None
  | String a s' =>
      match rpartition_at c s' with
      | Some (h, t) => Some (String a h, t)
      | None => if decide (a = c) then Some ("", s) else None
      end
  end.

(** [(s[:i], s[i:])] for [i = s.find(c)], the whole string when absent *)
Fixpoint partition_at (c : ascii) (s : string) : string * string :=
  match s with
  | EmptyString => ("", "")
  | String a s' =>
      if decide (a = c) then ("", s)
      else let '(h, t) := partition_at c s' in (String a h, t)
  end.

(** some character of [s] differs from [c] *)
Fixpoint has_other_than (c : ascii) (s : string) : bool :=
  match s with
  | EmptyString => false
  | String a s' => if decide (a = c) then has_other_than c s' else true
  end.

End PyStr.

(** * [os.path] on POSIX *)

Module OsPath.
Import PyStr.

Definition sep : ascii := "/".

(** [os.path.basename(p)] *)
Definition basename (p : string) : string := snd (rpartition_after sep p).

(** [os.path.dirname(p)] *)
Definition dirname (p : string) : string :=
  let head := fst (rpartition_after sep p) in
  if decide (head ≠ "" ∧ head ≠ repeat sep (length head))
  then rstrip sep head else head.

(** [os.path.join(a, b)] *)
Definition join (a b : string) : string :=
  if startswith b "/" then b
  else if bool_decide (a = "") || endswith a "/" then a +:+ b
  else a +:+ "/" +:+ b.

(** [os.path.splitext(p)]: the extension starts at the last dot of the
    last component, unless only dots precede it there. *)
Definition splitext (p : string) : string * string :=
  let '(head, tail) := rpartition_after sep p in
  match rpartition_at "." tail with
  | Some (stem, ext) =>
      if has_other_than "." stem then (head +:+ stem, ext) else (p, "")
  | None => (p, "")
  end.

(** One turn of the component loop of [os.path.normpath]; [new_comps] is
    kept in reverse order. *)
Definition normpath_step (initial_slashes : nat) (new_comps : list string)
    (comp : string) : list string :=
  if bool_decide (comp = "") || bool_decide (comp = ".") then new_comps
  else if bool_decide (comp ≠ "..")
          || (bool_decide (initial_slashes = 0) && bool_decide (new_comps = []))
          || bool_decide (head new_comps = Some "..")
       then comp :: new_comps
       else tail new_comps.

(** [os.path.normpath(path)] *)
Definition normpath (path : string) : string :=
  if decide (path = "") then "."
  else
    let initial_slashes :=
      if startswith path "/"
      then if startswith path "//" && negb (startswith path "///") then 2 else 1
      else 0 in
    let comps := rev (fold_left (normpath_step initial_slashes) (split sep path) []) in
    let path' := repeat sep initial_slashes +:+ PyStr.join "/" comps in
    if decide (path' = "") then "." else path'.

(** What [os.path.expanduser] reads from the process environment. *)
Record os_env := {
  environ_HOME : option string;      (* os.environ['HOME'] *)
  pw_dir_self : option string;       (* pwd.getpwuid(os.getuid()).pw_dir *)
  pw_dir_of : string → option string (* pwd.getpwnam(name).pw_dir *)
}.

(** [os.path.expanduser(path)] *)
Definition expanduser (env : os_env) (path : string) : string :=
  match path with
  | String "~" rest =>
      let '(user, tl) := partition_at sep rest in
      let userhome :=
        if decide (user = "")
        then match environ_HOME env with
             | Some h => Some h
             | None => pw_dir_self env
             end
        else pw_dir_of env user in
      match userhome with
      | None => path
      | Some h =>
          let r := rstrip sep h +:+ tl in
          if decide (r = "") then "/" else r
      end
  | _ => path
  end.

End OsPath.

(** * The fragment of [re] used by the handler *)

Module Re.
Import PyStr.

(** Character sets: [\d], [.] (no DOTALL: anything but a newline) and a
    bracket set such as [[ _-]]. *)
Inductive cset :=
| CDigit
| CAny
| COneOf (l : list ascii).

Definition is_digit (a : ascii) : bool :=
  match a with
  | "0" | "1" | "2" | "3" | "4" | "5" | "6" | "7" | "8" | "9" => true
  | _ => false
  end%char.

Definition cset_mem (c : cset) (a : ascii) : bool :=
  match c with
  | CDigit => is_digit a
  | CAny => negb (bool_decide (a = "010"%char))
  | COneOf l => bool_decide (a ∈ l)
  end.

(** Patterns.  [RLit s] is [re.escape(s)]; [REol] is [$]; a capturing
    group matches like its body and has no constructor. *)
Inductive regex :=
| RLit (s : string)
| RSet (c : cset)
| RStar (c : cset)
| RPlus (c : cset)
| RRep (n : nat) (c : cset)
| REol
| RCat (r1 r2 : regex).

(** All the ways [c*] can consume a prefix of [s], longest first, each
    given by what is left of [s]. *)
Fixpoint star_rests (c : cset) (s : string) : list string :=
  match s with
  | EmptyString => [s]
  | String a s' => if cset_mem c a then star_rests c s' ++ [s] else [s]
  end.

Fixpoint rep_rest (n : nat) (c : cset) (s : string) : option string :=
  match n with
  | 0 => Some s
  | S n' =>
      match s with
      | String a s' => if cset_mem c a then rep_rest n' c s' else None
      | EmptyString => None
      end
  end.

(** [rests r s]: every way [r] can match at the start of [s], in the
    order the backtracking matcher tries them, each given by the rest of
    [s] after the match. *)
Fixpoint rests (r : regex) (s : string) : list string :=
  match r with
  | RLit l => option_list (strip_prefix l s)
  | RSet c =>
      match s with
      | String a s' => if cset_mem c a then [s'] else []
      | EmptyString => []
      end
  | RStar c => star_rests c s
  | RPlus c =>
      match s with
      | String a s' => if cset_mem c a then star_rests c s' else []
      | EmptyString => []
      end
  | RRep n c => option_list (rep_rest n c s)
  | REol =>
      if bool_decide (s = "") || bool_decide (s = String "010" "") then [s] else []
  | RCat r1 r2 => flat_map (rests r2) (rests r1 s)
  end.

(** The meaning of a pattern, independently of the matcher:
    [matches r s rest] when [r] matches a prefix of [s] and [rest] is what
    follows it. *)
Inductive matches : regex → string → string → Prop :=
| matches_lit l rest : matches (RLit l) (l +:+ rest) rest
| matches_set c a rest :
    cset_mem c a = true → matches (RSet c) (String a rest) rest
| matches_star_nil c s : matches (RStar c) s s
| matches_star_cons c a s rest :
    cset_mem c a = true → matches (RStar c) s rest →
    matches (RStar c) (String a s) rest
| matches_plus c a s rest :
    cset_mem c a = true → matches (RStar c) s rest →
    matches (RPlus c) (String a s) rest
| matches_rep_0 c s : matches (RRep 0 c) s s
| matches_rep_S n c a s rest :
    cset_mem c a = true → matches (RRep n c) s rest →
    matches (RRep (S n) c) (String a s) rest
| matches_eol_end : matches REol "" ""
| matches_eol_newline : matches REol (String "010" "") (String "010" "")
| matches_cat r1 r2 s mid rest :
    matches r1 s mid → matches r2 mid rest → matches (RCat r1 r2) s rest.

(** [pattern.match(s)] as a truth value.  The match is tried at position
    0 only, where a leading [^] always succeeds. *)
Definition pmatch (r : regex) (s : string) : bool :=
  match rests r s with
  | [] => false
  | _ :: _ => true
  end.

(** [re.search(r, s)] as a truth value: a match at some position. *)
Fixpoint search (r : regex) (s : string) : bool :=
  pmatch r s ||
  match s with
  | EmptyString => false
  | String _ s' => search r s'
  end.

End Re.

Infix "⋅" := Re.RCat (at level 55, right associativity).


(** * Configuration, events and the world *)

(** The JSON configuration: [config["folders"]], each with ["path"] and
    ["base_filenames"], each of those with ["name"]. *)
Module Cfg.
Record base_config := { name : string }.
Record folder_config := { path : string; base_filenames : list base_config }.
Record config := { folders : list folder_config }.
End Cfg.

(** A watchdog file-system event. *)
Record event := {
  is_directory : bool;
  src_path : string;
  dest_path : string
}.

(** Exceptions raised by [shutil.move] on regular files: the [OSError]s of
    [os.rename], of the copy and of [os.unlink]. *)
Inductive exn :=
| FileNotFoundError (filename : string)
| PermissionError (filename : string).

(** The two lines the handler prints:
    [Versioned: {old} → {new}] and [Updated: {incoming} → {base}]. *)
Inductive log_line :=
| Versioned (base_filename versioned_filename : string)
| Updated (filename base_filename : string).

(** Observable effects, in the order they happen.  A move, and the copy a
    failed move leaves behind, record whether they replaced a file that was
    at their destination. *)
Inductive effect :=
| EMove (src dst : string) (replaced : bool)
| ECopy (src dst : string) (replaced : bool)
| EPrint (l : log_line).

(** The mutable state: the handler's [last_processed] dict and the world
    (files, paths the operating system refuses to change, effects so
    far). *)
Record state := {
  last_processed : gmap string float;
  fs : gmap string string;
  refused : gset string;
  trace : list effect
}.

Definition set_last_processed (m : gmap string float) (σ : state) : state :=
  {| last_processed := m; fs := fs σ; refused := refused σ; trace := trace σ |}.

Definition set_fs (m : gmap string string) (σ : state) : state :=
  {| last_processed := last_processed σ; fs := m; refused := refused σ; trace := trace σ |}.

Definition emit (e : effect) (σ : state) : state :=
  {| last_processed := last_processed σ; fs := fs σ; refused := refused σ;
     trace := (trace σ ++ [e])%list |}.

(** ** The state-and-exception monad *)

Inductive result (A : Type) :=
| Ok (a : A)
| Raise (e : exn)
| Diverged.   (* a loop exceeded its bound; see [probe_loop] *)
Arguments Ok {A} a.
Arguments Raise {A} e.
Arguments Diverged {A}.

Definition M (A : Type) : Type := state → result A * state.

Definition ret {A} (a : A) : M A := λ σ, (Ok a, σ).

Definition bind {A B} (m : M A) (k : A → M B) : M B := λ σ,
  match m σ with
  | (Ok a, σ') => k a σ'
  | (Raise e, σ') => (Raise e, σ')
  | (Diverged, σ') => (Diverged, σ')
  end.

#[global] Instance M_ret : MRet M := @ret.
#[global] Instance M_bind : MBind M := λ A B k m, bind m k.

Definition get : M state := λ σ, (Ok σ, σ).
Definition modify (f : state → state) : M unit := λ σ, (Ok tt, f σ).
Definition raise {A} (e : exn) : M A := λ σ, (Raise e, σ).
Definition diverge {A} : M A := λ σ, (Diverged, σ).

(** [for x in l: body(x)] *)
Fixpoint for_each {A} (l : list A) (body : A → M unit) : M unit :=
  match l with
  | [] => ret tt
  | x :: l' => body x;; for_each l' body
  end.

(** ** System calls *)

(** [os.path.exists(p)], on a disk that holds regular files only: a path
    exists when a file is stored under it. *)
Definition path_exists (p : string) : M bool :=
  σ ← get; ret (bool_decide (is_Some (fs σ !! p))).

(** [os.rename(src, dst)] succeeds when both paths may be changed; renaming
    a file to itself succeeds without any action. *)
Definition rename_allowed (src dst : string) (σ : state) : bool :=
  bool_decide (src = dst)
  || (bool_decide (src ∉ refused σ) && bool_decide (dst ∉ refused σ)).

(** [shutil.move(src, dst)] between regular files of one volume
    ([shutil.py], [move]):
<<
    try:
        os.rename(src, real_dst)
    except OSError:
        ...
        else:
            copy_function(src, real_dst)
            os.unlink(src)
>>
    The rename replaces a file already at [dst].  When it is refused, the
    copy raises if [dst] may not be written; otherwise it lands, and
    [os.unlink] raises on the source that could not be renamed. *)
Definition shutil_move (src dst : string) : M unit :=
  σ ← get;
  match fs σ !! src with
  | None => raise (FileNotFoundError src)
  | Some content =>
      if rename_allowed src dst σ then
        modify (λ σ,
          emit (EMove src dst (bool_decide (src ≠ dst ∧ is_Some (fs σ !! dst))))
               (set_fs (<[dst := content]> (delete src (fs σ))) σ))
      else if bool_decide (dst ∈ refused σ) then raise (PermissionError dst)
      else
        modify (λ σ,
          emit (ECopy src dst (bool_decide (is_Some (fs σ !! dst))))
               (set_fs (<[dst := content]> (fs σ)) σ));;
        raise (PermissionError src)
  end.

(** [print(line)] *)
Definition print (l : log_line) : M unit := modify (emit (EPrint l)).

(** * The handler *)

(** The immutable attributes of a [FileVersionHandler]. *)
Record handler := {
  config : Cfg.config;
  file_patterns : gmap string (list (Re.regex * string));
  cooldown : float
}.

Section FileVersionHandler.
Import PyStr OsPath Re.

(** The process environment read by [os.path.expanduser]. *)
Context (env : os_env).

(** The five patterns compiled for one base filename, in source order. *)
Definition patterns_for (base_filename : string) : list (regex * string) :=
  let '(name, ext) := splitext base_filename in
  [ (* ^\((\d+)\) base_filename $ *)
    (RLit "(" ⋅ RPlus CDigit ⋅ RLit ")" ⋅ RLit base_filename ⋅ REol, base_filename);
    (* ^ name [ _-]copy\d* ext $ *)
    (RLit name ⋅ RSet (COneOf [" "; "_"; "-"]%char) ⋅ RLit "copy" ⋅ RStar CDigit
       ⋅ RLit ext ⋅ REol, base_filename);
    (* ^ name  \(\d+\) ext $ *)
    (RLit name ⋅ RLit " (" ⋅ RPlus CDigit ⋅ RLit ")" ⋅ RLit ext ⋅ REol, base_filename);
    (* ^ name [ _-]\d+ ext $ *)
    (RLit name ⋅ RSet (COneOf [" "; "_"; "-"]%char) ⋅ RPlus CDigit ⋅ RLit ext ⋅ REol,
     base_filename);
    (* ^.* name .* ext $ *)
    (RStar CAny ⋅ RLit name ⋅ RStar CAny ⋅ RLit ext ⋅ REol, base_filename) ].

(** The inner loop of [prepare_patterns]: [extend] once per base filename. *)
Definition folder_patterns (base_filenames : list Cfg.base_config)
    : list (regex * string) :=
  fold_left (λ acc base_config, (acc ++ patterns_for (Cfg.name base_config))%list)
    base_filenames [].

Definition prepare_patterns (cfg : Cfg.config)
    : gmap string (list (regex * string)) :=
  fold_left
    (λ file_patterns folder_config,
       let folder_path := expanduser env (Cfg.path folder_config) in
       <[folder_path := folder_patterns (Cfg.base_filenames folder_config)]> file_patterns)
    (Cfg.folders cfg) ∅.

(** [__init__]: the handler and its empty [last_processed]. *)
Definition init (cfg : Cfg.config) : handler :=
  {| config := cfg; file_patterns := prepare_patterns cfg; cooldown := 2%float |}.

(** ** [version_files] *)

(** The [while os.path.exists(versioned_path)] loop.  [fuel] bounds the
    number of tests of the loop condition; [probe_loop_total] shows that
    the bound [version_files] passes is never reached. *)
Fixpoint probe_loop (fuel : nat) (folder_path name timestamp ext : string)
    (versioned_filename versioned_path : string) (counter : nat)
    : M (string * string) :=
  match fuel with
  | 0 => diverge
  | S fuel' =>
      taken ← path_exists versioned_path;
      if (taken : bool) then
        let versioned_filename :=
          name +:+ "_v" +:+ timestamp +:+ "_" +:+ pretty counter +:+ ext in
        let versioned_path := join folder_path versioned_filename in
        probe_loop fuel' folder_path name timestamp ext
          versioned_filename versioned_path (counter + 1)
      else ret (versioned_filename, versioned_path)
  end.

(** [timestamp] is [datetime.now().strftime("%Y-%m-%d")]. *)
Definition version_files (timestamp : string)
    (folder_path file_path filename base_filename : string) : M unit :=
  let base_path := join folder_path base_filename in
  (present ← path_exists base_path;
   if (present : bool) then
     let '(name, ext) := splitext base_filename in
     let versioned_filename := name +:+ "_v" +:+ timestamp +:+ ext in
     let versioned_path := join folder_path versioned_filename in
     σ ← get;
     '(versioned_filename, versioned_path) ←
       probe_loop (S (S (size (fs σ)))) folder_path name timestamp ext
         versioned_filename versioned_path 1;
     shutil_move base_path versioned_path;;
     print (Versioned base_filename versioned_filename)
   else ret tt);;
  shutil_move file_path base_path;;
  print (Updated filename base_filename).

(** ** [check_file_match] *)

(** [_v\d{4}-\d{2}-\d{2}] *)
Definition version_marker : regex :=
  RLit "_v" ⋅ RRep 4 CDigit ⋅ RLit "-" ⋅ RRep 2 CDigit ⋅ RLit "-" ⋅ RRep 2 CDigit.

(** The [for pattern, base_filename in patterns] loop with its [break]. *)
Fixpoint check_patterns (timestamp : string)
    (patterns : list (regex * string))
    (file_path filename folder_path : string) : M unit :=
  match patterns with
  | [] => ret tt
  | (pattern, base_filename) :: patterns' =>
      if pmatch pattern filename then
        if decide (filename ≠ base_filename)
        then version_files timestamp folder_path file_path filename base_filename
        else ret tt
      else check_patterns timestamp patterns' file_path filename folder_path
  end.

Definition check_file_match (self : handler) (timestamp : string)
    (file_path filename folder_path : string) : M unit :=
  if search version_marker filename then ret tt
  else
    let patterns := default [] (file_patterns self !! folder_path) in
    check_patterns timestamp patterns file_path filename folder_path.

(** ** [process_file_event] *)

(** [current_time] is [time.time()]. *)
Definition process_file_event (self : handler) (current_time : float)
    (timestamp : string) (file_path : string) : M unit :=
  σ ← get;
  if match last_processed σ !! file_path with
     | Some last => PrimFloat.ltb (PrimFloat.sub current_time last) (cooldown self)
     | None => false
     end
  then ret tt
  else
    modify (set_last_processed (<[file_path := current_time]> (last_processed σ)));;
    let dir_path := dirname file_path in
    let filename := basename file_path in
    if startswith filename "." || endswith filename ".crdownload"
       || endswith filename ".download"
    then ret tt
    else
      for_each (Cfg.folders (config self)) (λ folder_config,
        let folder_path := expanduser env (Cfg.path folder_config) in
        if decide (normpath dir_path = normpath folder_path)
        then check_file_match self timestamp file_path filename folder_path
        else ret tt).

(** The part of [process_file_event] that follows the debounce test and
    the update of [last_processed]; named for the statements about it. *)
Definition after_debounce (self : handler) (timestamp : string)
    (file_path : string) : M unit :=
  let dir_path := dirname file_path in
  let filename := basename file_path in
  if startswith filename "." || endswith filename ".crdownload"
     || endswith filename ".download"
  then ret tt
  else
    for_each (Cfg.folders (config self)) (λ folder_config,
      let folder_path := expanduser env (Cfg.path folder_config) in
      if decide (normpath dir_path = normpath folder_path)
      then check_file_match self timestamp file_path filename folder_path
      else ret tt).

(** ** [on_created] and [on_moved] *)

Definition on_created (self : handler) (current_time : float)
    (timestamp : string) (event : event) : M unit :=
  if negb (is_directory event)
  then process_file_event self current_time timestamp (src_path event)
  else ret tt.

Definition on_moved (self : handler) (current_time : float)
    (timestamp : string) (event : event) : M unit :=
  if negb (is_directory event)
  then process_file_event self current_time timestamp (dest_path event)
  else ret tt.

End FileVersionHandler.

(** ** Names of archived versions *)

(** The [n]-th name the versioning engine tries for the archived copy:
    [{name}_v{timestamp}{ext}] for [n = 0], then
    [{name}_v{timestamp}_{n}{ext}]. *)
Definition versioned_filename_at (name timestamp ext : string) (n : nat) : string :=
  match n with
  | 0 => name +:+ "_v" +:+ timestamp +:+ ext
  | S _ => name +:+ "_v" +:+ timestamp +:+ "_" +:+ pretty n +:+ ext
  end.

Definition versioned_path_at (folder_path name timestamp ext : string) (n : nat) : string :=
  OsPath.join folder_path (versioned_filename_at name timestamp ext n).

(** The state after the archive step of [version_files] has moved the
    incumbent (of content [content]) to [versioned_path] and printed its
    line. *)
Definition archived (base_path versioned_path base_filename versioned_filename content : string)
    (σ : state) : state :=
  emit (EPrint (Versioned base_filename versioned_filename))
    (emit (EMove base_path versioned_path false)
       (set_fs (<[versioned_path := content]> (delete base_path (fs σ))) σ)).

(** The state after the promote step has moved the incoming file (of
    content [content]) onto the base path and printed its line. *)
Definition promoted (file_path base_path filename base_filename content : string)
    (σ : state) : state :=
  emit (EPrint (Updated filename base_filename))
    (emit (EMove file_path base_path false)
       (set_fs (<[base_path := content]> (delete file_path (fs σ))) σ)).

(** The state after a move that could not rename [src] has left a copy of
    its content at the vacant path [dst]. *)
Definition copied (src dst content : string) (σ : state) : state :=
  emit (ECopy src dst false) (set_fs (<[dst := content]> (fs σ)) σ).

(** A move or copy that replaced nothing (other effects qualify
    trivially). *)
Definition replaces_nothing (e : effect) : Prop :=
  match e with
  | EMove _ _ replaced => replaced = false
  | ECopy _ _ replaced => replaced = false
  | EPrint _ => True
  end.

(** ** A worked scenario *)

(** The configuration written by [create_default_config], a home
    directory, and a Downloads folder holding [invoice.pdf] and the
    browser's [invoice (1).pdf]. *)
Module Scenario.

Definition env : OsPath.os_env :=
  {| OsPath.environ_HOME := Some "/home/u";
     OsPath.pw_dir_self := None;
     OsPath.pw_dir_of := λ _, None |}.

Definition default_config : Cfg.config :=
  {| Cfg.folders :=
       [ {| Cfg.path := "~/Downloads";
            Cfg.base_filenames :=
              [ {| Cfg.name := "statement.pdf" |};
                {| Cfg.name := "invoice.pdf" |};
                {| Cfg.name := "report.pdf" |} ] |} ] |}.

Definition self : handler := init env default_config.

Definition downloads : string := "/home/u/Downloads".
Definition today : string := "2024-05-01".

Definition created (p : string) : event :=
  {| is_directory := false; src_path := p; dest_path := "" |}.

Definition disk0 : state :=
  {| last_processed := ∅;
     fs := <["/home/u/Downloads/invoice.pdf" := "first"]>
             (<["/home/u/Downloads/invoice (1).pdf" := "second"]> ∅);
     refused := ∅;
     trace := [] |}.

(** The browser saves another [invoice (1).pdf]. *)
Definition download (content : string) (σ : state) : state :=
  set_fs (<["/home/u/Downloads/invoice (1).pdf" := content]> (fs σ)) σ.

(** The disk after one promotion of [invoice (1).pdf], and after the
    browser's next download has been promoted too, on the same day. *)
Definition disk1 : state :=
  (version_files today downloads "/home/u/Downloads/invoice (1).pdf"
     "invoice (1).pdf" "invoice.pdf" disk0).2.

Definition disk2 : state :=
  (version_files today downloads "/home/u/Downloads/invoice (1).pdf"
     "invoice (1).pdf" "invoice.pdf" (download "third" disk1)).2.

(** The same disk while [invoice.pdf] is held open by another program, so
    that the operating system refuses to rename or remove it; it can still
    be read. *)
Definition disk_locked : state :=
  {| last_processed := ∅;
     fs := fs disk0;
     refused := {["/home/u/Downloads/invoice.pdf"]};
     trace := [] |}.

(** A Downloads folder from which [invoice (1).pdf] has gone by the time
    its event is handled. *)
Definition disk_vanished : state :=
  {| last_processed := ∅;
     fs := <["/home/u/Downloads/invoice.pdf" := "first"]> ∅;
     refused := ∅;
     trace := [] |}.

(** A Downloads folder holding [report.pdf], an archived version of it, an
    unfinished download and a hidden file. *)
Definition disk_misc : state :=
  {| last_processed := ∅;
     fs := <["/home/u/Downloads/report.pdf" := "r2"]>
             (<["/home/u/Downloads/report_v2024-01-01.pdf" := "r1"]>
                (<["/home/u/Downloads/report.pdf.crdownload" := "partial"]>
                   (<["/home/u/Downloads/.report (1).pdf" := "hidden"]> ∅)));
     refused := ∅;
     trace := [] |}.

End Scenario.

(** ** The resolver as the specification words it *)

(** Follows the specification (Match Resolver, step 5), not the source:
    "on first match, if the filename is NOT byte-identical to the
    associated base filename, return that match; else continue".  It is
    compared with [check_patterns] below. *)
Fixpoint resolve_continuing (patterns : list (Re.regex * string)) (filename : string)
    : option string :=
  match patterns with
  | [] => None
  | (pattern, base_filename) :: patterns' =>
      if Re.pmatch pattern filename && bool_decide (filename ≠ base_filename)
      then Some base_filename
      else resolve_continuing patterns' filename
  end.

(** ** Overlapping base filenames *)

(** A folder [/w] tracking [a.pdf] and [xa.pdf], in either order, holding
    the file [xa.pdf]. *)
Module Overlap.

Definition config_of (base_filenames : list string) : Cfg.config :=
  {| Cfg.folders :=
       [ {| Cfg.path := "/w";
            Cfg.base_filenames := (λ n, {| Cfg.name := n |}) <$> base_filenames |} ] |}.

Definition xa_first : handler := init Scenario.env (config_of ["xa.pdf"; "a.pdf"]).
Definition a_first : handler := init Scenario.env (config_of ["a.pdf"; "xa.pdf"]).

Definition disk : state :=
  {| last_processed := ∅;
     fs := <["/w/xa.pdf" := "x"]> ∅;
     refused := ∅;
     trace := [] |}.

End Overlap.

(** ** Frame predicate *)

(** A computation that never touches the [last_processed] dict, whether it
    returns or raises. *)
Definition keeps_last_processed {A} (m : M A) : Prop :=
  ∀ σ, last_processed (m σ).2 = last_processed σ.

(** * Examples of the path functions *)

Section examples_os_path.
Import OsPath.

Example basename_ex : basename "/home/u/Downloads/invoice (1).pdf" = "invoice (1).pdf".
Proof. reflexivity. Qed.

Example dirname_ex : dirname "/home/u/Downloads/invoice (1).pdf" = "/home/u/Downloads".
Proof. reflexivity. Qed.

Example dirname_root_ex : dirname "/invoice.pdf" = "/".
Proof. reflexivity. Qed.

Example splitext_ex : splitext "invoice.pdf" = ("invoice", ".pdf").
Proof. reflexivity. Qed.

Example splitext_dots_ex : splitext "..bashrc" = ("..bashrc", "").
Proof. reflexivity. Qed.

Example splitext_tar_ex : splitext "a/b.c/x.tar.gz" = ("a/b.c/x.tar", ".gz").
Proof. reflexivity. Qed.

Example normpath_ex : normpath "/home//u/./Downloads/../Downloads/" = "/home/u/Downloads".
Proof. reflexivity. Qed.

Example normpath_rel_ex : normpath "../a/../../b" = "../../b".
Proof. reflexivity. Qed.

Example join_ex : join "/home/u/Downloads" "invoice.pdf" = "/home/u/Downloads/invoice.pdf".
Proof. reflexivity. Qed.

Example join_slash_ex : join "/home/u/Downloads/" "invoice.pdf" = "/home/u/Downloads/invoice.pdf".
Proof. reflexivity. Qed.

Example expanduser_ex :
  expanduser {| environ_HOME := Some "/home/u/"; pw_dir_self := None; pw_dir_of := λ _, None |}
    "~/Downloads" = "/home/u/Downloads".
Proof. reflexivity. Qed.
End examples_os_path.

(** * Examples of pattern matching *)

Section examples_patterns.
Import Re.

(** Which of the five patterns of [invoice.pdf] match which filename. *)
Example patterns_for_invoice_ex :
  (λ v, (λ q, pmatch q.1 v) <$> patterns_for "invoice.pdf")
    <$> [ "(1)invoice.pdf"; "invoice copy.pdf"; "invoice_copy2.pdf";
          "invoice (3).pdf"; "invoice_7.pdf"; "invoice.pdf"; "Invoice (3).pdf";
          "invoice (3).pdf.part" ]
  = [ [true; false; false; false; true];
      [false; true; false; false; true];
      [false; true; false; false; true];
      [false; false; true; false; true];
      [false; false; false; true; true];
      [false; false; false; false; true];
      [false; false; false; false; false];
      [false; false; false; false; false] ].
Proof. reflexivity. Qed.

Example version_marker_ex :
  search version_marker <$>
    [ "report_v2024-01-01.pdf"; "report_v2024-01-01_1.pdf"; "report_v2024-1-1.pdf";
      "report v2024-01-01.pdf"; "report.pdf" ]
  = [true; true; false; false; false].
Proof. reflexivity. Qed.

(** [$] also matches before a final newline, [.] does not cross one. *)
Example newline_ex :
  pmatch (RLit "a" ⋅ REol) (String "a" (String "010" "")) = true
  ∧ pmatch (RStar CAny ⋅ RLit "b" ⋅ REol) (String "010" "b") = false.
Proof. split; reflexivity. Qed.

End examples_patterns.

(** * Facts about strings and paths *)

Section string_facts.
Import PyStr.

Lemma str_app_cons a s1 s2 : String a s1 +:+ s2 = String a (s1 +:+ s2).
Proof. reflexivity. Qed.

Lemma str_app_nil_l s : "" +:+ s = s.
Proof. reflexivity. Qed.

Lemma str_app_nil_r s : s +:+ "" = s.
Proof. induction s as [|a s IH]; [done|]. by rewrite str_app_cons, IH. Qed.

Lemma str_app_assoc s1 s2 s3 : (s1 +:+ s2) +:+ s3 = s1 +:+ s2 +:+ s3.
Proof. induction s1 as [|a s1 IH]; [done|]. by rewrite !str_app_cons, IH. Qed.

Lemma str_length_app s1 s2 : length (s1 +:+ s2) = length s1 + length s2.
Proof. induction s1 as [|a s1 IH]; [done|]. rewrite str_app_cons. simpl. by rewrite IH. Qed.

(** Cancellation of a common suffix. *)
Lemma str_app_inj_r s1 s2 e : s1 +:+ e = s2 +:+ e → s1 = s2.
Proof.
  revert s2. induction s1 as [|a s1 IH]; intros [|b s2] H.
  - done.
  - apply (f_equal length) in H. rewrite str_app_nil_l, str_length_app in H. simpl in H. lia.
  - apply (f_equal length) in H. rewrite str_app_nil_l, str_length_app in H. simpl in H. lia.
  - rewrite !str_app_cons in H. injection H as -> H. f_equal. by apply IH.
Qed.

(** A string is never a proper extension of itself. *)
Lemma str_app_ne_self_l a p s : String a p +:+ s ≠ s.
Proof.
  intros H. apply (f_equal length) in H. rewrite str_length_app in H. simpl in H. lia.
Qed.

Lemma strip_prefix_app p s : strip_prefix p (p +:+ s) = Some s.
Proof.
  induction p as [|a p IH]; [done|].
  rewrite str_app_cons. simpl. by rewrite decide_True.
Qed.

Lemma strip_prefix_Some p s r : strip_prefix p s = Some r → s = p +:+ r.
Proof.
  revert s. induction p as [|a p IH]; intros s H; simpl in H.
  - by injection H as ->.
  - destruct s as [|b s]; [done|]. case_decide; [|done]. subst b.
    rewrite str_app_cons. f_equal. by apply IH.
Qed.

Lemma rpartition_after_app c s :
  fst (rpartition_after c s) +:+ snd (rpartition_after c s) = s.
Proof.
  induction s as [|a s IH]; [done|]. simpl.
  destruct (rpartition_after c s) as [[|b h] t]; simpl in *.
  - case_decide; simpl; by rewrite ?str_app_cons, ?str_app_nil_l, <- ?IH.
  - by rewrite str_app_cons, IH.
Qed.

Lemma rpartition_at_app c s h t : rpartition_at c s = Some (h, t) → h +:+ t = s.
Proof.
  revert h t. induction s as [|a s IH]; intros h t H; [done|]. simpl in H.
  destruct (rpartition_at c s) as [[h' t']|].
  - injection H as <- <-. rewrite str_app_cons. f_equal. by apply IH.
  - case_decide; [|done]. by injection H as <- <-.
Qed.

(** [os.path.splitext] splits: the two halves concatenate to the input. *)
Lemma splitext_app p name ext : OsPath.splitext p = (name, ext) → name +:+ ext = p.
Proof.
  unfold OsPath.splitext. intros H.
  pose proof (rpartition_after_app OsPath.sep p) as Hp.
  destruct (rpartition_after OsPath.sep p) as [head tail]; simpl in Hp.
  destruct (rpartition_at "." tail) as [[stem e]|] eqn:Hd.
  - apply rpartition_at_app in Hd.
    destruct (has_other_than "." stem); injection H as <- <-.
    + by rewrite str_app_assoc, Hd.
    + apply str_app_nil_r.
  - injection H as <- <-. apply str_app_nil_r.
Qed.

(** [os.path.join] puts a prefix in front of its second argument, and the
    prefix depends on that argument through its first character only. *)
Lemma join_prefix a c b :
  ∃ pre, ∀ r, OsPath.join a (String c b +:+ r) = pre +:+ String c b +:+ r.
Proof.
  unfold OsPath.join, startswith. setoid_rewrite str_app_cons. simpl.
  destruct (decide ("/"%char = c)).
  - exists "". done.
  - destruct (bool_decide (a = "") || endswith a "/").
    + exists a. done.
    + exists (a +:+ "/"). intros r. by rewrite str_app_assoc.
Qed.

End string_facts.

(** * The monad and the system calls *)

Ltac unfold_M :=
  unfold mbind, M_bind, mret, M_ret, bind, ret, get, modify, raise, diverge.

Section monad_facts.

Lemma bind_Ok {A B} (m : M A) (k : A → M B) σ a σ' :
  m σ = (Ok a, σ') → (m ≫= k) σ = k a σ'.
Proof. unfold_M. by intros ->. Qed.

Lemma bind_cong {A B} (m m' : M A) (k : A → M B) σ :
  m σ = m' σ → (m ≫= k) σ = (m' ≫= k) σ.
Proof. unfold_M. by intros ->. Qed.

Lemma bind_Raise {A B} (m : M A) (k : A → M B) σ e σ' :
  m σ = (Raise e, σ') → (m ≫= k) σ = (Raise e, σ').
Proof. unfold_M. by intros ->. Qed.

Lemma path_exists_eq p σ :
  path_exists p σ = (Ok (bool_decide (is_Some (fs σ !! p))), σ).
Proof. reflexivity. Qed.

Lemma path_exists_Some p c σ : fs σ !! p = Some c → path_exists p σ = (Ok true, σ).
Proof. intros H. rewrite path_exists_eq, bool_decide_eq_true_2; eauto. Qed.

Lemma path_exists_None p σ : fs σ !! p = None → path_exists p σ = (Ok false, σ).
Proof.
  intros H. rewrite path_exists_eq, bool_decide_eq_false_2; [done|].
  rewrite H. by intros [??].
Qed.

Lemma rename_allowed_true src dst σ :
  src ∉ refused σ → dst ∉ refused σ → rename_allowed src dst σ = true.
Proof.
  intros ??. unfold rename_allowed.
  rewrite (bool_decide_eq_true_2 (src ∉ _)), (bool_decide_eq_true_2 (dst ∉ _)) by done.
  apply orb_true_r.
Qed.

Lemma rename_allowed_false src dst σ :
  src ≠ dst → (src ∈ refused σ ∨ dst ∈ refused σ) → rename_allowed src dst σ = false.
Proof.
  intros ? Hr. unfold rename_allowed. rewrite bool_decide_eq_false_2 by done.
  destruct Hr.
  - rewrite (bool_decide_eq_false_2 (src ∉ _)); [done|tauto].
  - rewrite (bool_decide_eq_false_2 (dst ∉ _)); [apply andb_false_r|tauto].
Qed.

(** The outcomes of a move. *)
Lemma shutil_move_missing src dst σ :
  fs σ !! src = None → shutil_move src dst σ = (Raise (FileNotFoundError src), σ).
Proof. unfold shutil_move. unfold_M. by intros ->. Qed.

Lemma shutil_move_refused_dst src dst c σ :
  fs σ !! src = Some c → src ≠ dst → dst ∈ refused σ →
  shutil_move src dst σ = (Raise (PermissionError dst), σ).
Proof.
  unfold shutil_move. unfold_M. intros -> ??.
  rewrite rename_allowed_false by auto. by rewrite bool_decide_eq_true_2.
Qed.

Lemma shutil_move_refused_src src dst c σ :
  fs σ !! src = Some c → src ∈ refused σ → dst ∉ refused σ → fs σ !! dst = None →
  shutil_move src dst σ = (Raise (PermissionError src), copied src dst c σ).
Proof.
  unfold shutil_move. unfold_M. intros Hs ?? Hd. rewrite Hs.
  rewrite rename_allowed_false by (auto; congruence).
  rewrite bool_decide_eq_false_2 by done. unfold copied. do 3 f_equal.
  apply bool_decide_eq_false_2. rewrite Hd. by intros [??].
Qed.

Lemma shutil_move_fresh src dst c σ :
  fs σ !! src = Some c → src ∉ refused σ → dst ∉ refused σ → fs σ !! dst = None →
  shutil_move src dst σ =
    (Ok tt, emit (EMove src dst false) (set_fs (<[dst := c]> (delete src (fs σ))) σ)).
Proof.
  unfold shutil_move. unfold_M. intros -> ?? Hd.
  rewrite rename_allowed_true by done. do 3 f_equal.
  apply bool_decide_eq_false_2. rewrite Hd. by intros [_ [??]].
Qed.

(** A move raises before changing anything, or leaves a copy and raises, or
    succeeds; the last two record themselves. *)
Lemma shutil_move_cases src dst σ :
  (∃ e, shutil_move src dst σ = (Raise e, σ)
        ∧ (e = FileNotFoundError src ∨ e = PermissionError dst))
  ∨ (∃ c, fs σ !! src = Some c ∧ src ≠ dst
        ∧ shutil_move src dst σ =
            (Raise (PermissionError src),
             emit (ECopy src dst (bool_decide (is_Some (fs σ !! dst))))
               (set_fs (<[dst := c]> (fs σ)) σ)))
  ∨ (∃ c, fs σ !! src = Some c
        ∧ shutil_move src dst σ =
            (Ok tt, emit (EMove src dst (bool_decide (src ≠ dst ∧ is_Some (fs σ !! dst))))
                      (set_fs (<[dst := c]> (delete src (fs σ))) σ))).
Proof.
  unfold shutil_move. unfold_M.
  destruct (fs σ !! src) as [c|] eqn:Hs; [|left; eauto].
  destruct (rename_allowed src dst σ) eqn:Hr; [right; right; eauto|].
  destruct (bool_decide (dst ∈ refused σ)); [left; eauto 6|].
  right; left. exists c. split_and!; [done| |done].
  intros ->. unfold rename_allowed in Hr. by rewrite bool_decide_eq_true_2 in Hr.
Qed.

Lemma for_each_skip {A} (l : list A) (body : A → M unit) σ :
  (∀ x, x ∈ l → body x σ = (Ok tt, σ)) → for_each l body σ = (Ok tt, σ).
Proof.
  induction l as [|x l IH]; intros H; [done|]. simpl.
  erewrite bind_Ok by (apply H; left). apply IH. intros y Hy. apply H. by right.
Qed.

End monad_facts.

(** * The collision-probing loop *)

Section probing.
Context (folder_path name timestamp ext : string).

Abbreviation fname_at := (versioned_filename_at name timestamp ext).
Abbreviation path_at := (versioned_path_at folder_path name timestamp ext).
Abbreviation probe fuel := (probe_loop fuel folder_path name timestamp ext).

(** Counted names are pairwise distinct paths. *)
Lemma versioned_path_at_inj i j : path_at (S i) = path_at (S j) → i = j.
Proof.
  unfold versioned_path_at, versioned_filename_at. intros H.
  assert (∃ pre c b, ∀ r,
    OsPath.join folder_path (name +:+ "_v" +:+ r) = pre +:+ String c b +:+ r)
    as (pre & c & b & Hj).
  { destruct name as [|c n].
    - destruct (join_prefix folder_path "_" "v") as [pre Hp]. by exists pre, "_"%char, "v".
    - destruct (join_prefix folder_path c (n +:+ "_v")) as [pre Hp].
      exists pre, c, (n +:+ "_v"). intros r.
      specialize (Hp r). rewrite !str_app_cons, !str_app_assoc in Hp.
      by rewrite !str_app_cons, !str_app_assoc. }
  rewrite !Hj in H.
  apply (inj (String.app pre)), (inj (String.app (String c b))) in H.
  apply (inj (String.app timestamp)), (inj (String.app "_")) in H.
  apply str_app_inj_r, (inj pretty) in H. lia.
Qed.

(** Pigeonhole: the counted names 1..m cannot all be taken unless the
    file system holds at least [m] files. *)
Lemma taken_bound (files : gmap string string) m :
  (∀ j, 1 ≤ j ≤ m → is_Some (files !! path_at j)) → m ≤ size files.
Proof.
  intros Htaken.
  set (l := path_at <$> seq 1 m).
  assert (NoDup l) as Hnd.
  { apply NoDup_fmap_2_strong; [|apply NoDup_seq].
    intros x y [Hx _]%elem_of_seq [Hy _]%elem_of_seq Heq.
    destruct x as [|x]; [lia|]. destruct y as [|y]; [lia|].
    f_equal. by apply versioned_path_at_inj. }
  assert (list_to_set l ⊆@{gset string} dom files) as Hsub.
  { intros p [j [-> [??]%elem_of_seq]]%elem_of_list_to_set%list_elem_of_fmap.
    apply elem_of_dom, Htaken. lia. }
  apply subseteq_size in Hsub.
  rewrite size_list_to_set, size_dom in Hsub by done.
  unfold l in Hsub. by rewrite length_fmap, length_seq in Hsub.
Qed.

(** Some name is free, and the first free one comes within
    [size files + 2] tests. *)
Lemma first_free (files : gmap string string) :
  ∃ n, n < S (S (size files)) ∧ files !! path_at n = None
       ∧ ∀ j, j < n → is_Some (files !! path_at j).
Proof.
  assert (∀ m, (∀ j, j < m → is_Some (files !! path_at j))
             ∨ ∃ n, n < m ∧ files !! path_at n = None
                    ∧ ∀ j, j < n → is_Some (files !! path_at j)) as Hsearch.
  { induction m as [|m [IH|(n & ? & ? & ?)]].
    - left. lia.
    - destruct (files !! path_at m) as [c|] eqn:Hm.
      + left. intros j Hj. destruct (decide (j = m)) as [->|]; [by rewrite Hm|].
        apply IH. lia.
      + right. exists m. split_and!; [lia|done|done].
    - right. exists n. split_and!; [lia|done|done]. }
  destruct (Hsearch (S (S (size files)))) as [Hall|?]; [|done].
  assert (S (size files) ≤ size files); [|lia].
  apply taken_bound. intros j ?. apply Hall. lia.
Qed.

Lemma probe_loop_free fuel versioned_filename versioned_path counter σ :
  fs σ !! versioned_path = None →
  probe (S fuel) versioned_filename versioned_path counter σ
  = (Ok (versioned_filename, versioned_path), σ).
Proof.
  intros H. simpl. by erewrite bind_Ok by by apply path_exists_None.
Qed.

Lemma probe_loop_steps n : ∀ fuel versioned_filename versioned_path counter σ,
  is_Some (fs σ !! versioned_path) →
  (∀ j, counter ≤ j < counter + n → is_Some (fs σ !! path_at j)) →
  fs σ !! path_at (counter + n) = None →
  1 ≤ counter → n + 2 ≤ fuel →
  probe fuel versioned_filename versioned_path counter σ
  = (Ok (fname_at (counter + n), path_at (counter + n)), σ).
Proof.
  induction n as [|n IH]; intros fuel vf vp counter σ [c Hvp] Htaken Hfree Hc Hfuel.
  - destruct fuel as [|[|fuel]]; [lia..|].
    cbn [probe_loop]. erewrite bind_Ok by by eapply path_exists_Some.
    rewrite Nat.add_0_r in *. destruct counter as [|counter]; [lia|].
    by apply probe_loop_free.
  - destruct fuel as [|fuel]; [lia|].
    cbn [probe_loop]. erewrite bind_Ok by by eapply path_exists_Some.
    replace (counter + S n) with ((counter + 1) + n) in * by lia.
    destruct counter as [|counter]; [lia|].
    apply IH; [|intros j ?|done|lia..].
    + apply (Htaken (S counter)). lia.
    + apply Htaken. lia.
Qed.

(** The loop as [version_files] starts it returns the first free name,
    whatever fuel beyond its index it is given. *)
Lemma probe_loop_first_free σ n fuel :
  (∀ j, j < n → is_Some (fs σ !! path_at j)) →
  fs σ !! path_at n = None →
  n < fuel →
  probe fuel (fname_at 0) (path_at 0) 1 σ = (Ok (fname_at n, path_at n), σ).
Proof.
  intros Htaken Hfree Hfuel. destruct n as [|n].
  - destruct fuel as [|fuel]; [lia|]. by apply probe_loop_free.
  - apply (probe_loop_steps n); [|intros j ?|done|lia..].
    + apply Htaken. lia.
    + apply Htaken. lia.
Qed.

End probing.

(** * The versioning engine *)

Section versioning.
Import OsPath.
Context (timestamp folder_path file_path filename base_filename : string).

Abbreviation base_path := (join folder_path base_filename).
Abbreviation name := (splitext base_filename).1.
Abbreviation ext := (splitext base_filename).2.
Abbreviation fname_at := (versioned_filename_at name timestamp ext).
Abbreviation path_at := (versioned_path_at folder_path name timestamp ext).
Abbreviation promote :=
  (shutil_move file_path base_path;; print (Updated filename base_filename)).
Abbreviation run :=
  (version_files timestamp folder_path file_path filename base_filename).

(** Without an incumbent, [version_files] is the promote step alone. *)
Lemma version_files_absent σ :
  fs σ !! base_path = None → run σ = promote σ.
Proof.
  intros H. unfold version_files.
  erewrite (bind_Ok (_ ≫= _)); [done|].
  by erewrite bind_Ok by by apply path_exists_None.
Qed.

(** With an incumbent, it is the archive step to the first free versioned
    name, followed by the promote step. *)
Lemma version_files_present σ content n :
  fs σ !! base_path = Some content →
  (∀ j, j < n → is_Some (fs σ !! path_at j)) →
  fs σ !! path_at n = None →
  run σ =
    ((shutil_move base_path (path_at n);;
      print (Versioned base_filename (fname_at n)));;
     promote) σ.
Proof.
  intros Hb Htaken Hfree. unfold version_files.
  assert (n < S (S (size (fs σ)))) as Hfuel.
  { destruct n as [|n]; [lia|].
    assert (n ≤ size (fs σ)); [|lia].
    apply (taken_bound folder_path name timestamp ext). intros j ?. apply Htaken. lia. }
  destruct (splitext base_filename) as [nm ex]; simpl in *.
  pose proof (probe_loop_first_free folder_path nm timestamp ex σ n _
                Htaken Hfree Hfuel) as Hprobe.
  apply bind_cong.
  erewrite bind_Ok by by eapply path_exists_Some. cbv beta iota.
  erewrite (bind_Ok get) by reflexivity.
  by erewrite bind_Ok by exact Hprobe.
Qed.

(** The archive step onto a vacant path: refused outright, or refused
    after the copy has landed, or done. *)
Lemma archive_step σ content versioned_path versioned_filename :
  fs σ !! base_path = Some content →
  fs σ !! versioned_path = None →
  (shutil_move base_path versioned_path;;
   print (Versioned base_filename versioned_filename)) σ
  = if decide (versioned_path ∈ refused σ) then
      (Raise (PermissionError versioned_path), σ)
    else if decide (base_path ∈ refused σ) then
      (Raise (PermissionError base_path), copied base_path versioned_path content σ)
    else
      (Ok tt, archived base_path versioned_path base_filename versioned_filename
                content σ).
Proof.
  intros Hb Hv. repeat case_decide.
  - eapply bind_Raise, shutil_move_refused_dst; [done|congruence|done].
  - by eapply bind_Raise, shutil_move_refused_src.
  - by erewrite bind_Ok by by eapply shutil_move_fresh.
Qed.

(** The promote step onto a vacant base path. *)
Lemma promote_step σ :
  fs σ !! base_path = None →
  promote σ
  = match fs σ !! file_path with
    | None => (Raise (FileNotFoundError file_path), σ)
    | Some content =>
        if decide (base_path ∈ refused σ) then (Raise (PermissionError base_path), σ)
        else if decide (file_path ∈ refused σ) then
          (Raise (PermissionError file_path), copied file_path base_path content σ)
        else
          (Ok tt, promoted file_path base_path filename base_filename content σ)
    end.
Proof.
  intros Hb. destruct (fs σ !! file_path) as [c|] eqn:Hf.
  - repeat case_decide.
    + eapply bind_Raise, shutil_move_refused_dst; [done|congruence|done].
    + by eapply bind_Raise, shutil_move_refused_src.
    + by erewrite bind_Ok by by eapply shutil_move_fresh.
  - by apply bind_Raise, shutil_move_missing.
Qed.

(** With an incumbent, and [n] the first free index: the archive step is
    refused, or leaves a copy and is refused, or is followed by the promote
    step. *)
Lemma version_files_incumbent σ content n :
  fs σ !! base_path = Some content →
  (∀ j, j < n → is_Some (fs σ !! path_at j)) →
  fs σ !! path_at n = None →
  run σ
  = if decide (path_at n ∈ refused σ) then (Raise (PermissionError (path_at n)), σ)
    else if decide (base_path ∈ refused σ) then
      (Raise (PermissionError base_path), copied base_path (path_at n) content σ)
    else
      promote (archived base_path (path_at n) base_filename (fname_at n) content σ).
Proof.
  intros Hb Htaken Hfree.
  rewrite (version_files_present σ content n Hb Htaken Hfree).
  pose proof (archive_step σ content (path_at n) (fname_at n) Hb Hfree) as Harch.
  repeat case_decide.
  - by apply bind_Raise.
  - by apply bind_Raise.
  - by erewrite bind_Ok by exact Harch.
Qed.

End versioning.

(** * Archive, then promote *)

Lemma trace_archived bp vp b vf c σ :
  trace (archived bp vp b vf c σ) = trace σ ++ [EMove bp vp false; EPrint (Versioned b vf)].
Proof. unfold archived. simpl. by rewrite <- app_assoc. Qed.

Lemma trace_promoted fp bp f b c σ :
  trace (promoted fp bp f b c σ) = trace σ ++ [EMove fp bp false; EPrint (Updated f b)].
Proof. unfold promoted. simpl. by rewrite <- app_assoc. Qed.

Lemma fs_archived_base bp vp b vf c σ :
  fs σ !! vp = None → is_Some (fs σ !! bp) → fs (archived bp vp b vf c σ) !! bp = None.
Proof.
  intros Hv [c' Hb]. unfold archived. simpl.
  rewrite lookup_insert_ne by congruence. apply lookup_delete_eq.
Qed.

Lemma trace_copied src dst c σ :
  trace (copied src dst c σ) = trace σ ++ [ECopy src dst false].
Proof. done. Qed.

Lemma fs_copied src dst c σ : fs (copied src dst c σ) = <[dst := c]> (fs σ).
Proof. done. Qed.

Lemma fs_archived_versioned bp vp b vf c σ :
  fs (archived bp vp b vf c σ) !! vp = Some c.
Proof. unfold archived. simpl. apply lookup_insert_eq. Qed.

(** C1. Whenever a file already exists at the base path, [version_files]
    first moves that incumbent to a fresh date-stamped name, the first
    [{name}_v{date}...{ext}] at which no file exists, and only then moves
    the incoming file onto the base path.  Precisely, with [n] the index of
    that name:
    - when the operating system refuses the versioned path, the call raises
      and nothing has changed;
    - when it refuses the base path, the incumbent stays, a copy of it is
      left under the versioned name, and the call raises before any
      promote;
    - otherwise the incumbent is archived, and the promote step runs from
      the archived state, in which the base path is vacant and the
      versioned path holds the incumbent's content; when the incoming file
      is there and may be moved, the call returns with it at the base
      path.
    However the call ends, the incumbent's content is still on disk, under
    the base path or the versioned path, and no move or copy the call
    performed replaced a file. *)
Theorem version_files_archives_then_promotes
    (timestamp folder_path file_path filename base_filename : string)
    (σ : state) (content : string) :
  let base_path := OsPath.join folder_path base_filename in
  let name := (OsPath.splitext base_filename).1 in
  let ext := (OsPath.splitext base_filename).2 in
  let run := version_files timestamp folder_path file_path filename base_filename in
  fs σ !! base_path = Some content →
  ∃ n,
    let versioned_filename := versioned_filename_at name timestamp ext n in
    let versioned_path := OsPath.join folder_path versioned_filename in
    let σ1 := archived base_path versioned_path base_filename versioned_filename
                content σ in
    (∃ suffix, versioned_filename = name +:+ "_v" +:+ timestamp +:+ suffix +:+ ext)
    ∧ fs σ !! versioned_path = None
    ∧ (versioned_path ∈ refused σ →
       run σ = (Raise (PermissionError versioned_path), σ))
    ∧ (versioned_path ∉ refused σ → base_path ∈ refused σ →
       run σ = (Raise (PermissionError base_path),
                copied base_path versioned_path content σ))
    ∧ (versioned_path ∉ refused σ → base_path ∉ refused σ →
       fs σ1 !! base_path = None
       ∧ fs σ1 !! versioned_path = Some content
       ∧ run σ = (shutil_move file_path base_path;;
                  print (Updated filename base_filename)) σ1
       ∧ ∀ new, fs σ1 !! file_path = Some new → file_path ∉ refused σ →
           run σ = (Ok tt, promoted file_path base_path filename base_filename
                             new σ1))
    ∧ (fs (run σ).2 !! base_path = Some content
       ∨ fs (run σ).2 !! versioned_path = Some content)
    ∧ ∃ new, trace (run σ).2 = trace σ ++ new ∧ Forall replaces_nothing new.
Proof.
  intros base_path name ext run Hb.
  destruct (first_free folder_path name timestamp ext (fs σ))
    as (n & _ & Hfree & Htaken).
  exists n. intros vf vp σ1.
  assert (fs σ1 !! base_path = None) as Hvacant by (apply fs_archived_base; eauto).
  assert (fs σ1 !! vp = Some content) as Hkept by apply fs_archived_versioned.
  assert (vp ≠ base_path) as Hne by congruence.
  pose proof (version_files_incumbent timestamp folder_path file_path filename
                base_filename σ content n Hb Htaken Hfree) as Hrun.
  pose proof (promote_step folder_path file_path filename base_filename σ1 Hvacant)
    as Hpromote.
  fold name ext in Hrun. fold vf in Hrun. fold base_path in Hrun, Hpromote.
  change (versioned_path_at folder_path name timestamp ext n) with vp in Hrun.
  fold σ1 in Hrun. fold run in Hrun.
  change (refused σ1) with (refused σ) in Hpromote.
  pose proof Hrun as Hend. rewrite Hpromote in Hend.
  split_and!.
  - subst vf. destruct n.
    + by exists ""%string.
    + by exists ("_" +:+ pretty (S n)).
  - exact Hfree.
  - intros ?. by rewrite Hrun, decide_True.
  - intros ??. by rewrite Hrun, decide_False, decide_True.
  - intros ??. rewrite decide_False, decide_False in Hrun by done.
    split_and!; [done..|].
    intros new Hnew ?. rewrite Hnew, decide_False, decide_False in Hpromote by done.
    by rewrite Hrun.
  - rewrite Hend.
    destruct (decide (vp ∈ refused σ)); [by left|].
    destruct (decide (base_path ∈ refused σ)).
    { left. cbn [snd]. by rewrite fs_copied, lookup_insert_ne. }
    destruct (fs σ1 !! file_path) as [c|] eqn:Hf; [|by right].
    destruct (decide (file_path ∈ refused σ)); cbn [snd].
    + right. by rewrite fs_copied, lookup_insert_ne.
    + unfold promoted. cbn [fs emit set_fs].
      destruct (decide (file_path = vp)) as [->|?].
      * left. rewrite lookup_insert_eq. congruence.
      * right. rewrite lookup_insert_ne by done. by rewrite lookup_delete_ne.
  - rewrite Hend.
    destruct (decide (vp ∈ refused σ)).
    { exists []. by rewrite app_nil_r. }
    destruct (decide (base_path ∈ refused σ)).
    { eexists. split; [apply trace_copied|]. by repeat constructor. }
    destruct (fs σ1 !! file_path) as [c|] eqn:Hf.
    2:{ eexists. split; [apply trace_archived|]. by repeat constructor. }
    destruct (decide (file_path ∈ refused σ)); cbn [snd].
    + eexists. split.
      * rewrite trace_copied. unfold σ1. by rewrite trace_archived, <- app_assoc.
      * by repeat constructor.
    + eexists. split.
      * rewrite trace_promoted. unfold σ1. by rewrite trace_archived, <- app_assoc.
      * by repeat constructor.
Qed.

(** The scenario: [invoice.pdf] is archived to the vacant
    [invoice_v2024-05-01.pdf] before [invoice (1).pdf] takes its place. *)
Lemma version_files_archives_then_promotes_witness :
  ∃ n,
    (∃ suffix,
       versioned_filename_at "invoice" Scenario.today ".pdf" n
       = "invoice" +:+ "_v" +:+ Scenario.today +:+ suffix +:+ ".pdf")
    ∧ fs Scenario.disk0
        !! OsPath.join Scenario.downloads
             (versioned_filename_at "invoice" Scenario.today ".pdf" n) = None
    ∧ version_files Scenario.today Scenario.downloads
        "/home/u/Downloads/invoice (1).pdf" "invoice (1).pdf" "invoice.pdf"
        Scenario.disk0
      = (Ok tt,
         promoted "/home/u/Downloads/invoice (1).pdf"
           "/home/u/Downloads/invoice.pdf" "invoice (1).pdf" "invoice.pdf" "second"
           (archived "/home/u/Downloads/invoice.pdf"
              (OsPath.join Scenario.downloads
                 (versioned_filename_at "invoice" Scenario.today ".pdf" n))
              "invoice.pdf" (versioned_filename_at "invoice" Scenario.today ".pdf" n)
              "first" Scenario.disk0)).
Proof.
  destruct (version_files_archives_then_promotes Scenario.today Scenario.downloads
              "/home/u/Downloads/invoice (1).pdf" "invoice (1).pdf" "invoice.pdf"
              Scenario.disk0 "first")
    as (n & Hname & Hfree & _ & _ & Hdone & _).
  { reflexivity. }
  exists n. split_and!; [exact Hname|exact Hfree|].
  destruct Hdone as (_ & _ & _ & Hdone).
  { vm_compute. set_solver. }
  { vm_compute. set_solver. }
  apply Hdone.
  - unfold archived. cbn [fs emit set_fs].
    rewrite lookup_insert_ne.
    + reflexivity.
    + intros H. rewrite H in Hfree. discriminate Hfree.
  - vm_compute. set_solver.
Defined.

(** * Collision probing *)

(** C9. Over any (finite) file system the probing loop of [version_files]
    terminates: some index [n], below the bound [version_files] passes, is
    the first whose versioned path holds no file, and with any fuel beyond
    [n] the loop returns exactly that name and path, leaving the state
    untouched. *)
Theorem probe_loop_terminates_at_first_free
    (folder_path name timestamp ext : string) (σ : state) :
  ∃ n,
    n < S (S (size (fs σ)))
    ∧ fs σ !! versioned_path_at folder_path name timestamp ext n = None
    ∧ (∀ j, j < n →
         is_Some (fs σ !! versioned_path_at folder_path name timestamp ext j))
    ∧ ∀ fuel, n < fuel →
        probe_loop fuel folder_path name timestamp ext
          (versioned_filename_at name timestamp ext 0)
          (versioned_path_at folder_path name timestamp ext 0) 1 σ
        = (Ok (versioned_filename_at name timestamp ext n,
               versioned_path_at folder_path name timestamp ext n), σ).
Proof.
  destruct (first_free folder_path name timestamp ext (fs σ))
    as (n & Hn & Hfree & Htaken).
  exists n. split_and!; [done..|].
  intros fuel Hfuel. by apply probe_loop_first_free.
Qed.

(** C2. With an incumbent at the base path, the archive goes to the first
    versioned name that is not on disk: [{name}_v{date}{ext}] when that is
    free (index 0), otherwise [{name}_v{date}_{n}{ext}] for the least
    [n ≥ 1] that is free.  The name chosen held no file, and the incumbent's
    content ends up under it. *)
Theorem version_files_probes_and_increments
    (timestamp folder_path file_path filename base_filename : string)
    (σ : state) (content : string) (n : nat) :
  let base_path := OsPath.join folder_path base_filename in
  let name := (OsPath.splitext base_filename).1 in
  let ext := (OsPath.splitext base_filename).2 in
  let versioned_filename := versioned_filename_at name timestamp ext n in
  let versioned_path := OsPath.join folder_path versioned_filename in
  fs σ !! base_path = Some content →
  (∀ j, j < n →
     is_Some (fs σ !! versioned_path_at folder_path name timestamp ext j)) →
  fs σ !! versioned_path = None →
  base_path ∉ refused σ → versioned_path ∉ refused σ →
  let σ1 := archived base_path versioned_path base_filename versioned_filename
              content σ in
  version_files timestamp folder_path file_path filename base_filename σ
  = (shutil_move file_path base_path;; print (Updated filename base_filename)) σ1
  ∧ fs σ1 !! versioned_path = Some content
  ∧ versioned_filename =
      match n with
      | 0 => name +:+ "_v" +:+ timestamp +:+ ext
      | S _ => name +:+ "_v" +:+ timestamp +:+ "_" +:+ pretty n +:+ ext
      end.
Proof.
  intros base_path name ext vf vp Hb Htaken Hfree Hrb Hrv σ1.
  subst base_path name ext vf vp σ1. split_and!.
  - rewrite (version_files_present timestamp folder_path file_path filename
               base_filename σ content n Hb Htaken Hfree).
    erewrite bind_Ok; [reflexivity|].
    by erewrite bind_Ok by by eapply shutil_move_fresh.
  - unfold archived. simpl. apply lookup_insert_eq.
  - done.
Qed.

(** The same promotion twice on 2024-05-01: the first run archives to
    [invoice_v2024-05-01.pdf], the second to [invoice_v2024-05-01_1.pdf]. *)
Lemma version_files_probes_and_increments_witness :
  version_files Scenario.today Scenario.downloads
    "/home/u/Downloads/invoice (1).pdf" "invoice (1).pdf" "invoice.pdf"
    Scenario.disk0 = (Ok tt, Scenario.disk1)
  ∧ trace Scenario.disk1 =
      [ EMove "/home/u/Downloads/invoice.pdf"
          "/home/u/Downloads/invoice_v2024-05-01.pdf" false;
        EPrint (Versioned "invoice.pdf" "invoice_v2024-05-01.pdf");
        EMove "/home/u/Downloads/invoice (1).pdf" "/home/u/Downloads/invoice.pdf" false;
        EPrint (Updated "invoice (1).pdf" "invoice.pdf") ]
  ∧ version_files Scenario.today Scenario.downloads
      "/home/u/Downloads/invoice (1).pdf" "invoice (1).pdf" "invoice.pdf"
      (Scenario.download "third" Scenario.disk1) = (Ok tt, Scenario.disk2)
  ∧ trace Scenario.disk2 = trace Scenario.disk1 ++
      [ EMove "/home/u/Downloads/invoice.pdf"
          "/home/u/Downloads/invoice_v2024-05-01_1.pdf" false;
        EPrint (Versioned "invoice.pdf" "invoice_v2024-05-01_1.pdf");
        EMove "/home/u/Downloads/invoice (1).pdf" "/home/u/Downloads/invoice.pdf" false;
        EPrint (Updated "invoice (1).pdf" "invoice.pdf") ]
  ∧ fs Scenario.disk2 !! "/home/u/Downloads/invoice_v2024-05-01.pdf" = Some "first"
  ∧ fs Scenario.disk2 !! "/home/u/Downloads/invoice_v2024-05-01_1.pdf" = Some "second"
  ∧ fs Scenario.disk2 !! "/home/u/Downloads/invoice.pdf" = Some "third".
Proof.
  split.
  { rewrite (proj1 (version_files_probes_and_increments Scenario.today
               Scenario.downloads "/home/u/Downloads/invoice (1).pdf" "invoice (1).pdf"
               "invoice.pdf" Scenario.disk0 "first" 0
               ltac:(reflexivity) ltac:(intros j Hj; lia) ltac:(reflexivity)
               ltac:(vm_compute; set_solver) ltac:(vm_compute; set_solver))).
    vm_compute. reflexivity. }
  split; [vm_compute; reflexivity|]. split.
  { rewrite (proj1 (version_files_probes_and_increments Scenario.today
               Scenario.downloads "/home/u/Downloads/invoice (1).pdf" "invoice (1).pdf"
               "invoice.pdf" (Scenario.download "third" Scenario.disk1) "second" 1
               ltac:(vm_compute; reflexivity)
               ltac:(intros j Hj; replace j with 0 by lia; vm_compute; eauto)
               ltac:(vm_compute; reflexivity)
               ltac:(vm_compute; set_solver) ltac:(vm_compute; set_solver))).
    vm_compute. reflexivity. }
  repeat split; vm_compute; reflexivity.
Defined.

(** * Matching *)

Section matching.
Import PyStr Re.

(** The matcher is sound and complete for the meaning of patterns. *)

Lemma star_rests_matches c s rest :
  In rest (star_rests c s) ↔ matches (RStar c) s rest.
Proof.
  split.
  - revert rest. induction s as [|a s IH]; intros rest H; simpl in H.
    + destruct H as [<-|[]]. constructor.
    + destruct (cset_mem c a) eqn:Hc.
      * apply in_app_or in H as [H|[<-|[]]]; [|constructor].
        constructor; auto.
      * destruct H as [<-|[]]. constructor.
  - intros H. remember (RStar c) as r eqn:Hr.
    induction H; try discriminate; injection Hr as ->.
    + destruct s as [|a s]; simpl; [by left|].
      destruct (cset_mem c a); [apply in_or_app; right|]; by left.
    + simpl. rewrite H. apply in_or_app. left. auto.
Qed.

Lemma rep_rest_matches n c s rest :
  rep_rest n c s = Some rest ↔ matches (RRep n c) s rest.
Proof.
  split.
  - revert s. induction n as [|n IH]; intros s H; simpl in H.
    + injection H as <-. constructor.
    + destruct s as [|a s]; [done|]. destruct (cset_mem c a) eqn:Hc; [|done].
      constructor; auto.
  - intros H. remember (RRep n c) as r eqn:Hr. revert n Hr.
    induction H; intros n' Hr; try discriminate; injection Hr as <- <-.
    + done.
    + simpl. rewrite H. auto.
Qed.

Lemma rests_matches r s rest : In rest (rests r s) ↔ matches r s rest.
Proof.
  split.
  - revert s rest. induction r as [l|c|c|c|n c| |r1 IH1 r2 IH2]; intros s rest H; simpl in H.
    + destruct (strip_prefix l s) as [r|] eqn:Hs; [|done].
      destruct H as [<-|[]]. apply strip_prefix_Some in Hs as ->. constructor.
    + destruct s as [|a s]; [done|]. destruct (cset_mem c a) eqn:Hc; [|done].
      destruct H as [<-|[]]. by constructor.
    + by apply star_rests_matches.
    + destruct s as [|a s]; [done|]. destruct (cset_mem c a) eqn:Hc; [|done].
      constructor; [done|]. by apply star_rests_matches.
    + apply rep_rest_matches. by destruct (rep_rest n c s) as [r|]; [destruct H as [<-|[]]|].
    + destruct (bool_decide (s = "")) eqn:H1; simpl in H.
      * apply bool_decide_eq_true in H1 as ->. destruct H as [<-|[]]. constructor.
      * destruct (bool_decide (s = String "010" "")) eqn:H2; [|done].
        apply bool_decide_eq_true in H2 as ->. destruct H as [<-|[]]. constructor.
    + apply in_flat_map in H as (mid & H1 & H2). econstructor; eauto.
  - induction 1 as [l rest|c a rest Hc|c s|c a s rest Hc _ IH|c a s rest Hc _ IH
                    |c s|n c a s rest Hc _ IH| | |r1 r2 s mid rest _ IH1 _ IH2].
    + simpl. rewrite strip_prefix_app. by left.
    + simpl. rewrite Hc. by left.
    + apply star_rests_matches. constructor.
    + simpl in *. rewrite Hc. apply in_or_app. by left.
    + simpl in *. by rewrite Hc.
    + by left.
    + simpl in *. by rewrite Hc.
    + by left.
    + by left.
    + simpl. apply in_flat_map. eauto.
Qed.

Lemma pmatch_matches r s : pmatch r s = true ↔ ∃ rest, matches r s rest.
Proof.
  unfold pmatch. split.
  - destruct (rests r s) as [|rest l] eqn:H; [done|]. intros _.
    exists rest. apply rests_matches. rewrite H. by left.
  - intros [rest H%rests_matches]. by destruct (rests r s).
Qed.

Lemma in_rests_cat r1 r2 s s1 s2 :
  In s1 (rests r1 s) → In s2 (rests r2 s1) → In s2 (rests (r1 ⋅ r2) s).
Proof. intros H1 H2. simpl. apply in_flat_map. eauto. Qed.

Lemma in_rests_lit l s : In s (rests (RLit l) (l +:+ s)).
Proof. simpl. rewrite strip_prefix_app. by left. Qed.

Lemma in_rests_lit_whole l : In "" (rests (RLit l) l).
Proof. pose proof (in_rests_lit l "") as H. by rewrite str_app_nil_r in H. Qed.

Lemma in_star_rests_zero c s : In s (star_rests c s).
Proof.
  destruct s as [|a s]; simpl; [by left|].
  destruct (cset_mem c a); [|by left]. apply in_or_app. right. by left.
Qed.

Lemma in_rests_star_zero c s : In s (rests (RStar c) s).
Proof. apply in_star_rests_zero. Qed.

Lemma in_rests_star_one c a s :
  cset_mem c a = true → In s (rests (RStar c) (String a s)).
Proof.
  intros H. simpl. rewrite H. apply in_or_app. left. apply in_star_rests_zero.
Qed.

Lemma in_rests_plus_one c a s :
  cset_mem c a = true → In s (rests (RPlus c) (String a s)).
Proof. intros H. simpl. rewrite H. apply in_star_rests_zero. Qed.

Lemma in_rests_set c a s :
  cset_mem c a = true → In s (rests (RSet c) (String a s)).
Proof. intros H. simpl. rewrite H. by left. Qed.

Lemma in_rests_eol : In "" (rests REol "").
Proof. by left. Qed.

Lemma pmatch_intro r s rest : In rest (rests r s) → pmatch r s = true.
Proof. unfold pmatch. by destruct (rests r s). Qed.

(** The five variants of the specification, each against the pattern of
    [patterns_for] that recognises it. *)

Lemma numbered_prefix_matches f :
  pmatch (RLit "(" ⋅ RPlus CDigit ⋅ RLit ")" ⋅ RLit f ⋅ REol) ("(1)" +:+ f) = true.
Proof.
  apply (pmatch_intro _ _ "").
  eapply in_rests_cat; [apply (in_rests_lit "(" ("1)" +:+ f))|].
  eapply in_rests_cat; [by apply (in_rests_plus_one CDigit "1" (")" +:+ f))|].
  eapply in_rests_cat; [apply (in_rests_lit ")" f)|].
  eapply in_rests_cat; [apply in_rests_lit_whole|].
  apply in_rests_eol.
Qed.

Lemma copy_suffix_matches name ext :
  pmatch (RLit name ⋅ RSet (COneOf [" "; "_"; "-"]%char) ⋅ RLit "copy" ⋅ RStar CDigit
            ⋅ RLit ext ⋅ REol) (name +:+ " copy" +:+ ext) = true.
Proof.
  apply (pmatch_intro _ _ "").
  eapply in_rests_cat; [apply in_rests_lit|].
  eapply in_rests_cat; [by apply (in_rests_set _ " " ("copy" +:+ ext))|].
  eapply in_rests_cat; [apply (in_rests_lit "copy" ext)|].
  eapply in_rests_cat; [apply in_rests_star_zero|].
  eapply in_rests_cat; [apply in_rests_lit_whole|].
  apply in_rests_eol.
Qed.

Lemma copy_digit_suffix_matches name ext :
  pmatch (RLit name ⋅ RSet (COneOf [" "; "_"; "-"]%char) ⋅ RLit "copy" ⋅ RStar CDigit
            ⋅ RLit ext ⋅ REol) (name +:+ "_copy2" +:+ ext) = true.
Proof.
  apply (pmatch_intro _ _ "").
  eapply in_rests_cat; [apply in_rests_lit|].
  eapply in_rests_cat; [by apply (in_rests_set _ "_" ("copy2" +:+ ext))|].
  eapply in_rests_cat; [apply (in_rests_lit "copy" ("2" +:+ ext))|].
  eapply in_rests_cat; [by apply (in_rests_star_one CDigit "2" ext)|].
  eapply in_rests_cat; [apply in_rests_lit_whole|].
  apply in_rests_eol.
Qed.

Lemma parenthesized_counter_matches name ext :
  pmatch (RLit name ⋅ RLit " (" ⋅ RPlus CDigit ⋅ RLit ")" ⋅ RLit ext ⋅ REol)
    (name +:+ " (3)" +:+ ext) = true.
Proof.
  apply (pmatch_intro _ _ "").
  eapply in_rests_cat; [apply in_rests_lit|].
  eapply in_rests_cat; [apply (in_rests_lit " (" ("3)" +:+ ext))|].
  eapply in_rests_cat; [by apply (in_rests_plus_one CDigit "3" (")" +:+ ext))|].
  eapply in_rests_cat; [apply (in_rests_lit ")" ext)|].
  eapply in_rests_cat; [apply in_rests_lit_whole|].
  apply in_rests_eol.
Qed.

Lemma separator_digits_matches name ext :
  pmatch (RLit name ⋅ RSet (COneOf [" "; "_"; "-"]%char) ⋅ RPlus CDigit ⋅ RLit ext ⋅ REol)
    (name +:+ "_7" +:+ ext) = true.
Proof.
  apply (pmatch_intro _ _ "").
  eapply in_rests_cat; [apply in_rests_lit|].
  eapply in_rests_cat; [by apply (in_rests_set _ "_" ("7" +:+ ext))|].
  eapply in_rests_cat; [by apply (in_rests_plus_one CDigit "7" ext)|].
  eapply in_rests_cat; [apply in_rests_lit_whole|].
  apply in_rests_eol.
Qed.

(** The catch-all pattern matches the base filename itself. *)
Lemma catch_all_matches_base name ext :
  pmatch (RStar CAny ⋅ RLit name ⋅ RStar CAny ⋅ RLit ext ⋅ REol) (name +:+ ext) = true.
Proof.
  apply (pmatch_intro _ _ "").
  eapply in_rests_cat; [apply in_rests_star_zero|].
  eapply in_rests_cat; [apply in_rests_lit|].
  eapply in_rests_cat; [apply in_rests_star_zero|].
  eapply in_rests_cat; [apply in_rests_lit_whole|].
  apply in_rests_eol.
Qed.

End matching.

(** * The match resolver *)

Section resolver.
Import PyStr Re.
Context (timestamp file_path filename folder_path : string).

Abbreviation check patterns :=
  (check_patterns timestamp patterns file_path filename folder_path).

Lemma check_patterns_skip pre patterns :
  (∀ q, q ∈ pre → pmatch q.1 filename = false) →
  check (pre ++ patterns) = check patterns.
Proof.
  induction pre as [|[p b] pre IH]; intros H; [done|]. simpl.
  pose proof (H (p, b) ltac:(left)) as Hp. simpl in Hp. rewrite Hp.
  apply IH. intros q Hq. apply H. by right.
Qed.

Lemma check_patterns_none patterns :
  (∀ q, q ∈ patterns → pmatch q.1 filename = false) → check patterns = ret tt.
Proof.
  intros H. rewrite <- (app_nil_r patterns). by rewrite check_patterns_skip.
Qed.

Lemma check_patterns_hit p b patterns :
  pmatch p filename = true →
  check ((p, b) :: patterns) =
    if decide (filename ≠ b)
    then version_files timestamp folder_path file_path filename b
    else ret tt.
Proof. intros H. simpl. by rewrite H. Qed.

(** A run of patterns that all resolve to the same base filename acts as
    one pattern as soon as any of them matches. *)
Lemma check_patterns_same_base b mid post :
  (∀ q, q ∈ mid → q.2 = b) →
  (∃ q, q ∈ mid ∧ pmatch q.1 filename = true) →
  check (mid ++ post) =
    if decide (filename ≠ b)
    then version_files timestamp folder_path file_path filename b
    else ret tt.
Proof.
  induction mid as [|[p b'] mid IH]; intros Hb (q & Hq & Hm).
  - by apply elem_of_nil in Hq.
  - assert (b' = b) as -> by apply (Hb (p, b')), list_elem_of_here.
    simpl. destruct (pmatch p filename) eqn:Hp; [done|].
    apply IH.
    + intros q' Hq'. apply Hb. by right.
    + apply elem_of_cons in Hq as [->|Hq]; [simpl in Hm; congruence|eauto].
Qed.

End resolver.

Lemma patterns_for_base f q : q ∈ patterns_for f → q.2 = f.
Proof.
  unfold patterns_for. destruct (OsPath.splitext f) as [name ext].
  rewrite !elem_of_cons, elem_of_nil. intros [->|[->|[->|[->|[->|[]]]]]]; done.
Qed.

Lemma folder_patterns_flat_map l :
  folder_patterns l = flat_map (λ base_config, patterns_for (Cfg.name base_config)) l.
Proof.
  unfold folder_patterns.
  assert (∀ acc, fold_left (λ acc base_config,
                   acc ++ patterns_for (Cfg.name base_config)) l acc
                 = acc ++ flat_map (λ base_config, patterns_for (Cfg.name base_config)) l)
    as H; [|apply H].
  induction l as [|x l IH]; intros acc; simpl; [by rewrite app_nil_r|].
  by rewrite IH, app_assoc.
Qed.

Lemma folder_patterns_split earlier f later :
  folder_patterns (earlier ++ {| Cfg.name := f |} :: later)
  = folder_patterns earlier ++ patterns_for f ++ folder_patterns later.
Proof. rewrite !folder_patterns_flat_map, flat_map_app. done. Qed.

(** What [prepare_patterns] stores for a folder: the patterns of its base
    filenames, in configuration order, provided no two configured folders
    expand to the same path (the later one would win). *)
Lemma prepare_patterns_lookup env cfg folder_config :
  NoDup ((λ fc, OsPath.expanduser env (Cfg.path fc)) <$> Cfg.folders cfg) →
  folder_config ∈ Cfg.folders cfg →
  file_patterns (init env cfg) !! OsPath.expanduser env (Cfg.path folder_config)
  = Some (folder_patterns (Cfg.base_filenames folder_config)).
Proof.
  simpl. unfold prepare_patterns. generalize (Cfg.folders cfg). clear cfg.
  induction l as [|x l IH] using rev_ind; intros Hnd Hin.
  - by apply elem_of_nil in Hin.
  - rewrite fold_left_app. simpl.
    rewrite fmap_app in Hnd. apply NoDup_app in Hnd as (Hnd & Hfresh & _).
    apply elem_of_app in Hin as [Hin|Hin%list_elem_of_singleton].
    + rewrite lookup_insert_ne; [by apply IH|].
      intros Heq. apply (Hfresh (OsPath.expanduser env (Cfg.path folder_config))).
      * apply list_elem_of_fmap. eauto.
      * rewrite <- Heq. simpl. by left.
    + subst x. apply lookup_insert_eq.
Qed.

(** C4 (amended). The resolver tests the folder's patterns in list order
    and acts on the first that matches, whatever follows it in the list:
    when the filename differs from that pattern's base filename the file
    is promoted to it, and when it is identical nothing is done and no
    further pattern is tested. *)
Theorem check_file_match_stops_at_first_match
    (self : handler) (timestamp file_path filename folder_path : string)
    (pre post : list (Re.regex * string)) (pattern : Re.regex) (base_filename : string) :
  Re.search version_marker filename = false →
  file_patterns self !! folder_path = Some (pre ++ (pattern, base_filename) :: post) →
  (∀ q, q ∈ pre → Re.pmatch q.1 filename = false) →
  Re.pmatch pattern filename = true →
  check_file_match self timestamp file_path filename folder_path
  = if decide (filename ≠ base_filename)
    then version_files timestamp folder_path file_path filename base_filename
    else ret tt.
Proof.
  intros Hmark Hpats Hpre Hhit. unfold check_file_match.
  rewrite Hmark, Hpats. simpl.
  rewrite check_patterns_skip by done. by apply check_patterns_hit.
Qed.

(** With [xa.pdf] configured before [a.pdf], the file [xa.pdf] stops the
    resolver at the catch-all pattern of [xa.pdf]. *)
Lemma check_file_match_stops_at_first_match_witness :
  check_file_match Overlap.xa_first Scenario.today "/w/xa.pdf" "xa.pdf" "/w"
  = if decide ("xa.pdf" ≠ "xa.pdf")
    then version_files Scenario.today "/w" "/w/xa.pdf" "xa.pdf" "xa.pdf"
    else ret tt.
Proof.
  apply (check_file_match_stops_at_first_match Overlap.xa_first Scenario.today
           "/w/xa.pdf" "xa.pdf" "/w"
           (take 4 (patterns_for "xa.pdf")) (patterns_for "a.pdf")
           (Re.RStar Re.CAny ⋅ Re.RLit "xa" ⋅ Re.RStar Re.CAny ⋅ Re.RLit ".pdf" ⋅ Re.REol)
           "xa.pdf").
  - reflexivity.
  - reflexivity.
  - intros q Hq. apply list_elem_of_In in Hq. vm_compute in Hq.
    destruct Hq as [<-|[<-|[<-|[<-|[]]]]]; reflexivity.
  - reflexivity.
Defined.

(** C4, as stated, fails: with [xa.pdf] configured before [a.pdf], the
    file [xa.pdf] first matches the catch-all pattern of [xa.pdf], to whose
    base filename it is identical.  The source stops there and does
    nothing, although a later pattern (the catch-all of [a.pdf]) matches
    with a different base filename, which a resolver that continued would
    return. *)
Lemma check_file_match_does_not_continue :
  check_file_match Overlap.xa_first Scenario.today "/w/xa.pdf" "xa.pdf" "/w" Overlap.disk
  = (Ok tt, Overlap.disk)
  ∧ resolve_continuing (default [] (file_patterns Overlap.xa_first !! "/w")) "xa.pdf"
    = Some "a.pdf".
Proof. split; reflexivity. Qed.

(** C5, as stated, fails: with [a.pdf] configured before [xa.pdf], the
    exact base filename [xa.pdf] is caught by the catch-all pattern of
    [a.pdf] and promoted to [a.pdf]. *)
Lemma base_filename_promoted_to_overlapping_base :
  {| Cfg.name := "xa.pdf" |} ∈
    (Cfg.folders (config Overlap.a_first) ≫= Cfg.base_filenames)
  ∧ (on_created Scenario.env Overlap.a_first 100%float Scenario.today
       (Scenario.created "/w/xa.pdf") Overlap.disk).1 = Ok tt
  ∧ trace (on_created Scenario.env Overlap.a_first 100%float Scenario.today
             (Scenario.created "/w/xa.pdf") Overlap.disk).2
    = [ EMove "/w/xa.pdf" "/w/a.pdf" false; EPrint (Updated "xa.pdf" "a.pdf") ].
Proof.
  split; [|split; vm_compute; reflexivity].
  simpl. rewrite !elem_of_cons. auto.
Qed.

(** C5 (amended). Let [f] be a base filename configured for a folder, and
    [name], [ext] its two halves by [os.path.splitext].  Each of the
    variants [(1)f], [name copy ext], [name_copy2 ext], [name (3) ext] and
    [name_7 ext] matches one of the patterns compiled for [f] and differs
    from [f]; when it carries no version marker and no pattern compiled for
    an earlier-configured base filename matches it, the resolver promotes
    it to [f].  The exact filename [f] triggers nothing, provided no
    pattern compiled for an earlier-configured base filename matches it. *)
Theorem variants_promote_to_base
    (self : handler) (timestamp file_path folder_path : string)
    (earlier later : list Cfg.base_config) (f : string) :
  let name := (OsPath.splitext f).1 in
  let ext := (OsPath.splitext f).2 in
  file_patterns self !! folder_path
    = Some (folder_patterns (earlier ++ {| Cfg.name := f |} :: later)) →
  (∀ v, v ∈ [ "(1)" +:+ f; name +:+ " copy" +:+ ext; name +:+ "_copy2" +:+ ext;
              name +:+ " (3)" +:+ ext; name +:+ "_7" +:+ ext ] →
     (∃ q, q ∈ patterns_for f ∧ q.2 = f ∧ Re.pmatch q.1 v = true)
     ∧ v ≠ f
     ∧ (Re.search version_marker v = false →
        (∀ q, q ∈ folder_patterns earlier → Re.pmatch q.1 v = false) →
        check_file_match self timestamp file_path v folder_path
        = version_files timestamp folder_path file_path v f))
  ∧ ((∀ q, q ∈ folder_patterns earlier → Re.pmatch q.1 f = false) →
     ∀ σ, check_file_match self timestamp file_path f folder_path σ = (Ok tt, σ)).
Proof.
  intros name ext Hpats.
  assert (name +:+ ext = f) as Hf.
  { apply splitext_app. subst name ext. by destruct (OsPath.splitext f). }
  assert (∀ v, (∃ q, q ∈ patterns_for f ∧ q.2 = f ∧ Re.pmatch q.1 v = true) →
            (∀ q, q ∈ folder_patterns earlier → Re.pmatch q.1 v = false) →
            check_patterns timestamp
              (folder_patterns (earlier ++ {| Cfg.name := f |} :: later))
              file_path v folder_path
            = if decide (v ≠ f)
              then version_files timestamp folder_path file_path v f
              else ret tt) as Hcheck.
  { intros v (q & Hq & _ & Hm) Hearlier.
    rewrite folder_patterns_split, check_patterns_skip by done.
    apply check_patterns_same_base; [apply patterns_for_base|eauto]. }
  assert (∀ v, v ∈ [ "(1)" +:+ f; name +:+ " copy" +:+ ext; name +:+ "_copy2" +:+ ext;
                     name +:+ " (3)" +:+ ext; name +:+ "_7" +:+ ext ] →
            (∃ q, q ∈ patterns_for f ∧ q.2 = f ∧ Re.pmatch q.1 v = true) ∧ v ≠ f)
    as Hvariants.
  { intros v Hv. split.
    - unfold patterns_for. subst name ext.
      destruct (OsPath.splitext f) as [nm ex]; simpl in *.
      rewrite !elem_of_cons, elem_of_nil in Hv.
      destruct Hv as [->|[->|[->|[->|[->|[]]]]]]; eexists; split_and!.
      + apply list_elem_of_here.
      + done.
      + apply numbered_prefix_matches.
      + apply list_elem_of_further, list_elem_of_here.
      + done.
      + apply copy_suffix_matches.
      + apply list_elem_of_further, list_elem_of_here.
      + done.
      + apply copy_digit_suffix_matches.
      + do 2 apply list_elem_of_further. apply list_elem_of_here.
      + done.
      + apply parenthesized_counter_matches.
      + do 3 apply list_elem_of_further. apply list_elem_of_here.
      + done.
      + apply separator_digits_matches.
    - rewrite !elem_of_cons, elem_of_nil in Hv.
      destruct Hv as [->|[->|[->|[->|[->|[]]]]]]; rewrite <- Hf.
      + rewrite Hf. apply str_app_ne_self_l.
      + intros H%(inj (String.app name)). by apply str_app_ne_self_l in H.
      + intros H%(inj (String.app name)). by apply str_app_ne_self_l in H.
      + intros H%(inj (String.app name)). by apply str_app_ne_self_l in H.
      + intros H%(inj (String.app name)). by apply str_app_ne_self_l in H. }
  split.
  - intros v Hv. destruct (Hvariants v Hv) as [Hmatch Hne].
    split_and!; [done..|]. intros Hmark Hearlier.
    unfold check_file_match. rewrite Hmark, Hpats. simpl.
    rewrite Hcheck by done. by rewrite decide_True.
  - intros Hearlier σ. unfold check_file_match.
    destruct (Re.search version_marker f); [done|]. rewrite Hpats. simpl.
    rewrite Hcheck; [by rewrite decide_False by auto|..|done].
    unfold patterns_for. subst name ext.
    destruct (OsPath.splitext f) as [nm ex]; simpl in *.
    eexists (_, _). split_and!.
    + do 4 apply list_elem_of_further. apply list_elem_of_here.
    + done.
    + simpl. rewrite <- Hf. apply catch_all_matches_base.
Qed.

(** Under the default configuration, [invoice (3).pdf] is promoted to
    [invoice.pdf], and [invoice.pdf] itself triggers nothing. *)
Lemma variants_promote_to_base_witness :
  check_file_match Scenario.self Scenario.today
    "/home/u/Downloads/invoice (3).pdf" "invoice (3).pdf" Scenario.downloads
  = version_files Scenario.today Scenario.downloads
      "/home/u/Downloads/invoice (3).pdf" "invoice (3).pdf" "invoice.pdf"
  ∧ check_file_match Scenario.self Scenario.today
      "/home/u/Downloads/invoice.pdf" "invoice.pdf" Scenario.downloads Scenario.disk0
    = (Ok tt, Scenario.disk0).
Proof.
  assert (∀ v, (∀ q, q ∈ patterns_for "statement.pdf" → Re.pmatch q.1 v = true → False) →
            ∀ q, q ∈ folder_patterns [ {| Cfg.name := "statement.pdf" |} ] →
                 Re.pmatch q.1 v = false) as Hearlier.
  { intros v H q Hq. destruct (Re.pmatch q.1 v) eqn:Hm; [|done].
    destruct (H q Hq Hm). }
  split.
  - apply (proj1 (variants_promote_to_base Scenario.self Scenario.today
                    "/home/u/Downloads/invoice (3).pdf" Scenario.downloads
                    [ {| Cfg.name := "statement.pdf" |} ]
                    [ {| Cfg.name := "report.pdf" |} ] "invoice.pdf" eq_refl)
             "invoice (3).pdf").
    + do 3 apply list_elem_of_further. apply list_elem_of_here.
    + reflexivity.
    + apply Hearlier. intros q Hq%list_elem_of_In. vm_compute in Hq.
      destruct Hq as [<-|[<-|[<-|[<-|[<-|[]]]]]]; vm_compute; discriminate.
  - apply (proj2 (variants_promote_to_base Scenario.self Scenario.today
                    "/home/u/Downloads/invoice.pdf" Scenario.downloads
                    [ {| Cfg.name := "statement.pdf" |} ]
                    [ {| Cfg.name := "report.pdf" |} ] "invoice.pdf" eq_refl)).
    apply Hearlier. intros q Hq%list_elem_of_In. vm_compute in Hq.
    destruct Hq as [<-|[<-|[<-|[<-|[<-|[]]]]]]; vm_compute; discriminate.
Defined.

(** * The event handler *)

Section frame.

Lemma klp_ret {A} (a : A) : keeps_last_processed (mret a).
Proof. by intros σ. Qed.

Lemma klp_bind {A B} (m : M A) (k : A → M B) :
  keeps_last_processed m → (∀ a, keeps_last_processed (k a)) →
  keeps_last_processed (m ≫= k).
Proof.
  intros Hm Hk σ. specialize (Hm σ). unfold_M.
  destruct (m σ) as [[a|e|] σ']; simpl in *; [|done..].
  by rewrite Hk.
Qed.

Lemma klp_path_exists p : keeps_last_processed (path_exists p).
Proof. by intros σ. Qed.

Lemma klp_print l : keeps_last_processed (print l).
Proof. by intros σ. Qed.

Lemma klp_shutil_move src dst : keeps_last_processed (shutil_move src dst).
Proof.
  intros σ.
  destruct (shutil_move_cases src dst σ)
    as [(e & -> & _)|[(c & _ & _ & ->)|(c & _ & ->)]]; done.
Qed.

Lemma klp_probe_loop fuel folder_path name timestamp ext : ∀ vf vp counter,
  keeps_last_processed (probe_loop fuel folder_path name timestamp ext vf vp counter).
Proof.
  induction fuel as [|fuel IH]; intros vf vp counter; [by intros σ|].
  simpl. apply klp_bind; [apply klp_path_exists|].
  intros [|]; [apply IH|apply klp_ret].
Qed.

Lemma klp_version_files timestamp folder_path file_path filename base_filename :
  keeps_last_processed
    (version_files timestamp folder_path file_path filename base_filename).
Proof.
  unfold version_files. apply klp_bind.
  - apply klp_bind; [apply klp_path_exists|]. intros [|]; [|apply klp_ret].
    destruct (OsPath.splitext base_filename) as [name ext].
    apply klp_bind; [by intros σ|]. intros σ0.
    apply klp_bind; [apply klp_probe_loop|]. intros [vf vp].
    apply klp_bind; [apply klp_shutil_move|]. intros _. apply klp_print.
  - intros _. apply klp_bind; [apply klp_shutil_move|]. intros _. apply klp_print.
Qed.

Lemma klp_check_patterns timestamp patterns file_path filename folder_path :
  keeps_last_processed
    (check_patterns timestamp patterns file_path filename folder_path).
Proof.
  induction patterns as [|[p b] patterns IH]; simpl; [apply klp_ret|].
  destruct (Re.pmatch p filename); [|done].
  case_decide; [apply klp_version_files|apply klp_ret].
Qed.

Lemma klp_check_file_match self timestamp file_path filename folder_path :
  keeps_last_processed
    (check_file_match self timestamp file_path filename folder_path).
Proof.
  unfold check_file_match.
  destruct (Re.search version_marker filename); [apply klp_ret|].
  apply klp_check_patterns.
Qed.

Lemma klp_for_each {A} (l : list A) (body : A → M unit) :
  (∀ x, keeps_last_processed (body x)) → keeps_last_processed (for_each l body).
Proof.
  intros H. induction l as [|x l IH]; simpl; [apply klp_ret|].
  apply klp_bind; [apply H|]. by intros _.
Qed.

End frame.

Section dispatch.
Import PyStr OsPath.
Context (env : os_env) (self : handler) (current_time : float) (timestamp : string).
Context (file_path : string).

Abbreviation after_debounce := (after_debounce env self timestamp file_path).

Lemma process_file_event_debounced σ last :
  last_processed σ !! file_path = Some last →
  PrimFloat.ltb (PrimFloat.sub current_time last) (cooldown self) = true →
  process_file_event env self current_time timestamp file_path σ = (Ok tt, σ).
Proof.
  intros Hl Hlt. unfold process_file_event.
  erewrite (bind_Ok get) by reflexivity. by rewrite Hl, Hlt.
Qed.

Lemma process_file_event_accepted σ :
  match last_processed σ !! file_path with
  | Some last => PrimFloat.ltb (PrimFloat.sub current_time last) (cooldown self)
  | None => false
  end = false →
  process_file_event env self current_time timestamp file_path σ
  = after_debounce
      (set_last_processed (<[file_path := current_time]> (last_processed σ)) σ).
Proof.
  intros H. unfold process_file_event.
  erewrite (bind_Ok get) by reflexivity. rewrite H.
  by erewrite bind_Ok by reflexivity.
Qed.

Lemma klp_after_debounce : keeps_last_processed after_debounce.
Proof.
  unfold after_debounce.
  destruct (_ || _); [apply klp_ret|]. apply klp_for_each. intros fc.
  case_decide; [apply klp_check_file_match|apply klp_ret].
Qed.

(** When every call of [check_file_match] is a no-op, so is the dispatch. *)
Lemma after_debounce_skip σ :
  (∀ folder_path,
     check_file_match self timestamp file_path (basename file_path) folder_path σ
     = (Ok tt, σ)) →
  after_debounce σ = (Ok tt, σ).
Proof.
  intros H. unfold after_debounce. destruct (_ || _); [done|].
  apply for_each_skip. intros fc _. by case_decide.
Qed.

Lemma process_file_event_cases σ :
  process_file_event env self current_time timestamp file_path σ = (Ok tt, σ)
  ∨ process_file_event env self current_time timestamp file_path σ
    = after_debounce
        (set_last_processed (<[file_path := current_time]> (last_processed σ)) σ).
Proof.
  destruct (last_processed σ !! file_path) as [last|] eqn:Hl.
  - destruct (PrimFloat.ltb (PrimFloat.sub current_time last) (cooldown self)) eqn:Hlt.
    + left. by eapply process_file_event_debounced.
    + right. apply process_file_event_accepted. by rewrite Hl.
  - right. apply process_file_event_accepted. by rewrite Hl.
Qed.

End dispatch.

(** C6. A filename that contains a version marker [_v\d{4}-\d{2}-\d{2}]
    anywhere is never treated as a variant: [check_file_match] returns at
    once for any folder, and an event for such a file moves nothing and
    prints nothing. *)
Theorem versioned_files_never_reprocessed
    (env : OsPath.os_env) (self : handler) (current_time : float)
    (timestamp file_path folder_path : string) (σ : state) :
  let filename := OsPath.basename file_path in
  let run := process_file_event env self current_time timestamp file_path in
  Re.search version_marker filename = true →
  check_file_match self timestamp file_path filename folder_path σ = (Ok tt, σ)
  ∧ (run σ).1 = Ok tt ∧ fs (run σ).2 = fs σ ∧ trace (run σ).2 = trace σ.
Proof.
  intros filename run Hmark. subst filename run.
  assert (∀ folder σ', check_file_match self timestamp file_path
                         (OsPath.basename file_path) folder σ' = (Ok tt, σ')) as Hskip.
  { intros folder σ'. unfold check_file_match. by rewrite Hmark. }
  split; [apply Hskip|].
  destruct (process_file_event_cases env self current_time timestamp file_path σ)
    as [->| ->]; [done|].
  by rewrite after_debounce_skip.
Qed.

(** [report_v2024-01-01.pdf] is not taken for a variant of [report.pdf]. *)
Lemma versioned_files_never_reprocessed_witness :
  check_file_match Scenario.self Scenario.today
    "/home/u/Downloads/report_v2024-01-01.pdf" "report_v2024-01-01.pdf"
    Scenario.downloads Scenario.disk_misc = (Ok tt, Scenario.disk_misc)
  ∧ (process_file_event Scenario.env Scenario.self 100%float Scenario.today
       "/home/u/Downloads/report_v2024-01-01.pdf" Scenario.disk_misc).1 = Ok tt
  ∧ fs (process_file_event Scenario.env Scenario.self 100%float Scenario.today
          "/home/u/Downloads/report_v2024-01-01.pdf" Scenario.disk_misc).2
    = fs Scenario.disk_misc
  ∧ trace (process_file_event Scenario.env Scenario.self 100%float Scenario.today
             "/home/u/Downloads/report_v2024-01-01.pdf" Scenario.disk_misc).2
    = trace Scenario.disk_misc.
Proof.
  apply (versioned_files_never_reprocessed Scenario.env Scenario.self 100%float
           Scenario.today "/home/u/Downloads/report_v2024-01-01.pdf"
           Scenario.downloads Scenario.disk_misc).
  reflexivity.
Defined.

(** C8. An event whose filename starts with [.] or ends with
    [.crdownload] or [.download] is rejected before any matching: nothing
    is moved and nothing is printed, whatever the configuration. *)
Theorem temporary_files_never_promoted
    (env : OsPath.os_env) (self : handler) (current_time : float)
    (timestamp file_path : string) (σ : state) :
  let filename := OsPath.basename file_path in
  let run := process_file_event env self current_time timestamp file_path in
  PyStr.startswith filename "." = true
  ∨ PyStr.endswith filename ".crdownload" = true
  ∨ PyStr.endswith filename ".download" = true →
  (run σ).1 = Ok tt ∧ fs (run σ).2 = fs σ ∧ trace (run σ).2 = trace σ.
Proof.
  intros filename run Htemp. subst filename run.
  destruct (process_file_event_cases env self current_time timestamp file_path σ)
    as [->| ->]; [done|].
  unfold after_debounce.
  assert (PyStr.startswith (OsPath.basename file_path) "."
          || PyStr.endswith (OsPath.basename file_path) ".crdownload"
          || PyStr.endswith (OsPath.basename file_path) ".download" = true) as ->; [|done].
  destruct Htemp as [->|[->| ->]]; by rewrite ?orb_true_r.
Qed.

(** Neither [.report (1).pdf] nor [report.pdf.crdownload] is promoted to
    [report.pdf]. *)
Lemma temporary_files_never_promoted_witness :
  ((process_file_event Scenario.env Scenario.self 100%float Scenario.today
      "/home/u/Downloads/.report (1).pdf" Scenario.disk_misc).1 = Ok tt
   ∧ fs (process_file_event Scenario.env Scenario.self 100%float Scenario.today
           "/home/u/Downloads/.report (1).pdf" Scenario.disk_misc).2
     = fs Scenario.disk_misc
   ∧ trace (process_file_event Scenario.env Scenario.self 100%float Scenario.today
              "/home/u/Downloads/.report (1).pdf" Scenario.disk_misc).2
     = trace Scenario.disk_misc)
  ∧ ((process_file_event Scenario.env Scenario.self 100%float Scenario.today
        "/home/u/Downloads/report.pdf.crdownload" Scenario.disk_misc).1 = Ok tt
     ∧ fs (process_file_event Scenario.env Scenario.self 100%float Scenario.today
             "/home/u/Downloads/report.pdf.crdownload" Scenario.disk_misc).2
       = fs Scenario.disk_misc
     ∧ trace (process_file_event Scenario.env Scenario.self 100%float Scenario.today
                "/home/u/Downloads/report.pdf.crdownload" Scenario.disk_misc).2
       = trace Scenario.disk_misc).
Proof.
  split.
  - apply (temporary_files_never_promoted Scenario.env Scenario.self 100%float
             Scenario.today "/home/u/Downloads/.report (1).pdf" Scenario.disk_misc).
    left. reflexivity.
  - apply (temporary_files_never_promoted Scenario.env Scenario.self 100%float
             Scenario.today "/home/u/Downloads/report.pdf.crdownload" Scenario.disk_misc).
    right. left. reflexivity.
Defined.

(** C10. For an event whose subject is a directory, [on_created] and
    [on_moved] do nothing at all: the state (the debounce dict, the files,
    the effects so far) is returned as it was. *)
Theorem directory_events_ignored
    (env : OsPath.os_env) (self : handler) (current_time : float)
    (timestamp : string) (event : event) (σ : state) :
  is_directory event = true →
  on_created env self current_time timestamp event σ = (Ok tt, σ)
  ∧ on_moved env self current_time timestamp event σ = (Ok tt, σ).
Proof. intros H. unfold on_created, on_moved. by rewrite H. Qed.

(** A directory named like a variant of [invoice.pdf] is left alone. *)
Lemma directory_events_ignored_witness :
  on_created Scenario.env Scenario.self 100%float Scenario.today
    {| is_directory := true; src_path := "/home/u/Downloads/invoice (1).pdf";
       dest_path := "" |} Scenario.disk0 = (Ok tt, Scenario.disk0)
  ∧ on_moved Scenario.env Scenario.self 100%float Scenario.today
      {| is_directory := true; src_path := "/home/u/Downloads/invoice (1).pdf";
         dest_path := "" |} Scenario.disk0 = (Ok tt, Scenario.disk0).
Proof.
  apply (directory_events_ignored Scenario.env Scenario.self 100%float Scenario.today
           {| is_directory := true; src_path := "/home/u/Downloads/invoice (1).pdf";
              dest_path := "" |} Scenario.disk0).
  reflexivity.
Defined.

(** C7. The debouncer of [process_file_event], with the cooldown of 2
    seconds that [__init__] sets.  If the path was last processed less
    than 2 seconds before [current_time], the event is dropped and the
    state is unchanged.  Otherwise [last_processed[path]] becomes
    [current_time], the event goes on to the resolver, and a second event
    for the same path within the cooldown is dropped whole: of the two,
    only the first can promote. *)
Theorem debouncer_contract
    (env : OsPath.os_env) (cfg : Cfg.config) (current_time : float)
    (timestamp file_path : string) (σ : state) :
  let self := init env cfg in
  let run := process_file_event env self current_time timestamp file_path in
  (∀ last,
     last_processed σ !! file_path = Some last →
     PrimFloat.ltb (PrimFloat.sub current_time last) 2 = true →
     run σ = (Ok tt, σ))
  ∧ ((∀ last,
        last_processed σ !! file_path = Some last →
        PrimFloat.ltb (PrimFloat.sub current_time last) 2 = false) →
     run σ = after_debounce env self timestamp file_path
               (set_last_processed
                  (<[file_path := current_time]> (last_processed σ)) σ)
     ∧ last_processed (run σ).2 = <[file_path := current_time]> (last_processed σ)
     ∧ ∀ later timestamp',
         PrimFloat.ltb (PrimFloat.sub later current_time) 2 = true →
         process_file_event env self later timestamp' file_path (run σ).2
         = (Ok tt, (run σ).2)).
Proof.
  intros self run. subst run. split.
  - intros last Hl Hlt. by eapply process_file_event_debounced.
  - intros Hpass.
    assert (process_file_event env self current_time timestamp file_path σ
            = after_debounce env self timestamp file_path
                (set_last_processed
                   (<[file_path := current_time]> (last_processed σ)) σ)) as Hrun.
    { apply process_file_event_accepted.
      destruct (last_processed σ !! file_path) as [last|] eqn:Hl; [|done].
      by apply Hpass. }
    assert (last_processed
              (process_file_event env self current_time timestamp file_path σ).2
            = <[file_path := current_time]> (last_processed σ)) as Hlp.
    { rewrite Hrun. by rewrite klp_after_debounce. }
    split_and!; [done..|].
    intros later timestamp' Hlt.
    eapply process_file_event_debounced; [|exact Hlt].
    rewrite Hlp. apply lookup_insert_eq.
Qed.

(** [invoice (1).pdf] is created at time 100 and reported again at time
    101.5: the second event changes nothing. *)
Lemma debouncer_contract_witness :
  last_processed
    (process_file_event Scenario.env Scenario.self 100%float Scenario.today
       "/home/u/Downloads/invoice (1).pdf" Scenario.disk0).2
  !! "/home/u/Downloads/invoice (1).pdf" = Some 100%float
  ∧ process_file_event Scenario.env Scenario.self 101.5%float Scenario.today
      "/home/u/Downloads/invoice (1).pdf"
      (process_file_event Scenario.env Scenario.self 100%float Scenario.today
         "/home/u/Downloads/invoice (1).pdf" Scenario.disk0).2
    = (Ok tt,
       (process_file_event Scenario.env Scenario.self 100%float Scenario.today
          "/home/u/Downloads/invoice (1).pdf" Scenario.disk0).2).
Proof.
  destruct (proj2 (debouncer_contract Scenario.env Scenario.default_config 100%float
                     Scenario.today "/home/u/Downloads/invoice (1).pdf" Scenario.disk0))
    as (_ & Hlp & Hsecond).
  { intros last Hl. vm_compute in Hl. discriminate. }
  split.
  - unfold Scenario.self. rewrite Hlp. apply lookup_insert_eq.
  - apply Hsecond. reflexivity.
Defined.

(** * Failing moves *)

(** When [version_files] raises, whatever it printed before is the line of
    a completed archive step: nothing is printed for the failure. *)
Lemma version_files_raise_inv
    (timestamp folder_path file_path filename base_filename : string)
    (σ σ' : state) (e : exn) :
  version_files timestamp folder_path file_path filename base_filename σ = (Raise e, σ') →
  ∃ new, trace σ' = trace σ ++ new
         ∧ ∀ l, EPrint l ∈ new → ∃ versioned_filename,
                  l = Versioned base_filename versioned_filename.
Proof.
  assert (∀ new : list effect,
            Forall (λ ev, ∀ l, ev = EPrint l →
                      ∃ versioned_filename, l = Versioned base_filename versioned_filename)
                   new →
            ∀ l, EPrint l ∈ new →
                 ∃ versioned_filename, l = Versioned base_filename versioned_filename)
    as Hprints.
  { intros new Hall l Hl. rewrite Forall_forall in Hall. by eapply Hall. }
  intros Hrun. destruct (fs σ !! OsPath.join folder_path base_filename) as [c|] eqn:Hb.
  - destruct (first_free folder_path (OsPath.splitext base_filename).1 timestamp
                (OsPath.splitext base_filename).2 (fs σ)) as (n & _ & Hfree & Htaken).
    rewrite (version_files_incumbent timestamp folder_path file_path filename
               base_filename σ c n Hb Htaken Hfree) in Hrun.
    destruct (decide (_ ∈ refused σ)).
    { injection Hrun as <- <-. exists []. rewrite app_nil_r. split; [done|].
      apply Hprints. constructor. }
    destruct (decide (_ ∈ refused σ)).
    { injection Hrun as <- <-. eexists. split; [apply trace_copied|].
      apply Hprints. repeat constructor. discriminate. }
    rewrite promote_step in Hrun by (apply fs_archived_base; eauto).
    destruct (fs _ !! file_path) as [c'|].
    + destruct (decide (_ ∈ refused _)).
      { injection Hrun as <- <-. eexists. split; [apply trace_archived|].
        apply Hprints. repeat constructor; [discriminate|]. intros l [= <-]. eauto. }
      destruct (decide (_ ∈ refused _)); [|discriminate].
      injection Hrun as <- <-. eexists. split.
      * by rewrite trace_copied, trace_archived, <- app_assoc.
      * apply Hprints. repeat constructor; try discriminate. intros l [= <-]. eauto.
    + injection Hrun as <- <-. eexists. split; [apply trace_archived|].
      apply Hprints. repeat constructor; [discriminate|]. intros l [= <-]. eauto.
  - rewrite version_files_absent, promote_step in Hrun by done.
    destruct (fs σ !! file_path) as [c'|].
    + destruct (decide (_ ∈ refused σ)).
      { injection Hrun as <- <-. exists []. rewrite app_nil_r. split; [done|].
        apply Hprints. constructor. }
      destruct (decide (_ ∈ refused σ)); [|discriminate].
      injection Hrun as <- <-. eexists. split; [apply trace_copied|].
      apply Hprints. repeat constructor. discriminate.
    + injection Hrun as <- <-. exists []. rewrite app_nil_r. split; [done|].
      apply Hprints. constructor.
Qed.

(** A handler that watches one folder hands an accepted event, whose
    filename the resolver maps to [base_filename], to [version_files], and
    ends as that call ends. *)
Lemma on_created_single_folder
    (env : OsPath.os_env) (self : handler) (current_time : float)
    (timestamp : string) (event : event) (folder_config : Cfg.folder_config)
    (pre post : list (Re.regex * string)) (pattern : Re.regex)
    (base_filename : string) (σ : state) :
  let file_path := src_path event in
  let filename := OsPath.basename file_path in
  let folder_path := OsPath.expanduser env (Cfg.path folder_config) in
  is_directory event = false →
  Cfg.folders (config self) = [folder_config] →
  match last_processed σ !! file_path with
  | Some last => PrimFloat.ltb (PrimFloat.sub current_time last) (cooldown self)
  | None => false
  end = false →
  PyStr.startswith filename "." || PyStr.endswith filename ".crdownload"
    || PyStr.endswith filename ".download" = false →
  OsPath.normpath (OsPath.dirname file_path) = OsPath.normpath folder_path →
  Re.search version_marker filename = false →
  file_patterns self !! folder_path = Some (pre ++ (pattern, base_filename) :: post) →
  (∀ q, q ∈ pre → Re.pmatch q.1 filename = false) →
  Re.pmatch pattern filename = true →
  filename ≠ base_filename →
  on_created env self current_time timestamp event σ
  = version_files timestamp folder_path file_path filename base_filename
      (set_last_processed (<[file_path := current_time]> (last_processed σ)) σ).
Proof.
  intros file_path filename folder_path Hdir Hfolders Hdeb Htemp Hnorm Hmark
    Hpats Hpre Hhit Hne.
  subst file_path filename folder_path.
  unfold on_created. rewrite Hdir. simpl.
  rewrite process_file_event_accepted by done.
  unfold after_debounce. rewrite Htemp, Hfolders. simpl.
  rewrite decide_True by done.
  unfold check_file_match. rewrite Hmark, Hpats. simpl.
  rewrite check_patterns_skip by done.
  erewrite check_patterns_hit by done. rewrite decide_True by done.
  unfold_M. by destruct (version_files _ _ _ _ _ _) as [[[]|?|] ?].
Qed.

(** C3, as stated, fails.  When [invoice (1).pdf] has vanished before its
    event is handled, the incumbent is archived and the promote move then
    raises [FileNotFoundError]; when [invoice.pdf] is held open, the
    archive move copies it to [invoice_v2024-05-01.pdf], cannot remove it
    and raises [PermissionError].  Either way the handler prints nothing
    about the failure and does not return normally: the exception leaves
    [on_created] for the dispatcher that called it. *)
Lemma on_created_raises_on_failed_move :
  ((on_created Scenario.env Scenario.self 100%float Scenario.today
      (Scenario.created "/home/u/Downloads/invoice (1).pdf") Scenario.disk_vanished).1
   = Raise (FileNotFoundError "/home/u/Downloads/invoice (1).pdf")
   ∧ trace (on_created Scenario.env Scenario.self 100%float Scenario.today
              (Scenario.created "/home/u/Downloads/invoice (1).pdf")
              Scenario.disk_vanished).2
     = [ EMove "/home/u/Downloads/invoice.pdf"
           "/home/u/Downloads/invoice_v2024-05-01.pdf" false;
         EPrint (Versioned "invoice.pdf" "invoice_v2024-05-01.pdf") ])
  ∧ (on_created Scenario.env Scenario.self 100%float Scenario.today
       (Scenario.created "/home/u/Downloads/invoice (1).pdf") Scenario.disk_locked).1
    = Raise (PermissionError "/home/u/Downloads/invoice.pdf")
  ∧ trace (on_created Scenario.env Scenario.self 100%float Scenario.today
             (Scenario.created "/home/u/Downloads/invoice (1).pdf")
             Scenario.disk_locked).2
    = [ ECopy "/home/u/Downloads/invoice.pdf"
          "/home/u/Downloads/invoice_v2024-05-01.pdf" false ]
  ∧ fs (on_created Scenario.env Scenario.self 100%float Scenario.today
          (Scenario.created "/home/u/Downloads/invoice (1).pdf")
          Scenario.disk_locked).2
    = <["/home/u/Downloads/invoice_v2024-05-01.pdf" := "first"]>
        (fs Scenario.disk_locked).
Proof. repeat split; vm_compute; reflexivity. Qed.

(** C3 (amended). When a move performed during promotion fails, nothing
    catches the failure: [version_files] raises the operating system's
    error, and [check_file_match], [process_file_event] and [on_created]
    pass it on to their caller (shown for a handler that watches one
    folder, on an event the debouncer and the filters accept and the
    resolver maps to [base_filename]).  Case by case, with [σ0] the state
    after the debounce entry has been recorded:
    - no incumbent, incoming file missing: [FileNotFoundError] for the
      incoming path, from [σ0];
    - no incumbent, base path refused: [PermissionError] for the base path,
      from [σ0];
    - no incumbent, incoming path refused: a copy of the incoming file is
      left at the base path, then [PermissionError] for the incoming path;
    - incumbent, first free versioned path refused: [PermissionError] for
      that path, from [σ0];
    - incumbent, base path refused: a copy of the incumbent is left at the
      versioned path, then [PermissionError] for the base path;
    - incumbent archived, incoming file missing: [FileNotFoundError] for
      the incoming path, the archive and its line remaining;
    - incumbent archived, incoming path refused: a copy of the incoming
      file is left at the base path, then [PermissionError] for the
      incoming path, the archive and its line remaining.
    Whenever [on_created] raises, the debounce entry of the event remains
    and the only line printed is that of a completed archive: nothing is
    printed for the failure. *)
Theorem move_failure_propagates
    (env : OsPath.os_env) (self : handler) (current_time : float)
    (timestamp : string) (event : event) (folder_config : Cfg.folder_config)
    (pre post : list (Re.regex * string)) (pattern : Re.regex)
    (base_filename : string) (σ : state) :
  let file_path := src_path event in
  let filename := OsPath.basename file_path in
  let folder_path := OsPath.expanduser env (Cfg.path folder_config) in
  let base_path := OsPath.join folder_path base_filename in
  let name := (OsPath.splitext base_filename).1 in
  let ext := (OsPath.splitext base_filename).2 in
  let σ0 := set_last_processed
              (<[file_path := current_time]> (last_processed σ)) σ in
  let run := on_created env self current_time timestamp event in
  is_directory event = false →
  Cfg.folders (config self) = [folder_config] →
  match last_processed σ !! file_path with
  | Some last => PrimFloat.ltb (PrimFloat.sub current_time last) (cooldown self)
  | None => false
  end = false →
  PyStr.startswith filename "." || PyStr.endswith filename ".crdownload"
    || PyStr.endswith filename ".download" = false →
  OsPath.normpath (OsPath.dirname file_path) = OsPath.normpath folder_path →
  Re.search version_marker filename = false →
  file_patterns self !! folder_path = Some (pre ++ (pattern, base_filename) :: post) →
  (∀ q, q ∈ pre → Re.pmatch q.1 filename = false) →
  Re.pmatch pattern filename = true →
  filename ≠ base_filename →
  (fs σ !! base_path = None →
     (fs σ !! file_path = None →
      run σ = (Raise (FileNotFoundError file_path), σ0))
     ∧ (∀ new, fs σ !! file_path = Some new → base_path ∈ refused σ →
          run σ = (Raise (PermissionError base_path), σ0))
     ∧ (∀ new, fs σ !! file_path = Some new →
          base_path ∉ refused σ → file_path ∈ refused σ →
          run σ = (Raise (PermissionError file_path),
                   copied file_path base_path new σ0)))
  ∧ (∀ old n,
       let versioned_filename := versioned_filename_at name timestamp ext n in
       let versioned_path := OsPath.join folder_path versioned_filename in
       let σ1 := archived base_path versioned_path base_filename versioned_filename
                   old σ0 in
       fs σ !! base_path = Some old →
       (∀ j, j < n →
          is_Some (fs σ !! versioned_path_at folder_path name timestamp ext j)) →
       fs σ !! versioned_path = None →
       (versioned_path ∈ refused σ →
        run σ = (Raise (PermissionError versioned_path), σ0))
       ∧ (versioned_path ∉ refused σ → base_path ∈ refused σ →
          run σ = (Raise (PermissionError base_path),
                   copied base_path versioned_path old σ0))
       ∧ (versioned_path ∉ refused σ → base_path ∉ refused σ →
          fs σ1 !! file_path = None →
          run σ = (Raise (FileNotFoundError file_path), σ1))
       ∧ (∀ new, versioned_path ∉ refused σ → base_path ∉ refused σ →
            fs σ1 !! file_path = Some new → file_path ∈ refused σ →
            run σ = (Raise (PermissionError file_path),
                     copied file_path base_path new σ1)))
  ∧ (∀ e σ', run σ = (Raise e, σ') →
       last_processed σ' !! file_path = Some current_time
       ∧ ∃ printed, trace σ' = trace σ ++ printed
           ∧ ∀ l, EPrint l ∈ printed →
               ∃ versioned_filename, l = Versioned base_filename versioned_filename).
Proof.
  intros file_path filename folder_path base_path name ext σ0 run Hdir Hfolders
    Hdeb Htemp Hnorm Hmark Hpats Hpre Hhit Hne.
  assert (run σ = version_files timestamp folder_path file_path filename
                    base_filename σ0) as Hrun
    by by eapply on_created_single_folder.
  split_and!.
  - intros Hb.
    pose proof (promote_step folder_path file_path filename base_filename σ0 Hb)
      as Hpromote.
    rewrite <- (version_files_absent timestamp folder_path file_path filename
                  base_filename σ0 Hb), <- Hrun in Hpromote.
    change (refused σ0) with (refused σ) in Hpromote.
    change (fs σ0) with (fs σ) in Hpromote.
    split_and!.
    + intros Hf. by rewrite Hpromote, Hf.
    + intros new Hf ?. by rewrite Hpromote, Hf, decide_True.
    + intros new Hf ??. by rewrite Hpromote, Hf, decide_False, decide_True.
  - intros old n vf vp σ1 Hb Htaken Hfree.
    pose proof (version_files_incumbent timestamp folder_path file_path filename
                  base_filename σ0 old n Hb Htaken Hfree) as Harch.
    rewrite <- Hrun in Harch.
    assert (fs σ1 !! base_path = None) as Hvacant by (apply fs_archived_base; eauto).
    pose proof (promote_step folder_path file_path filename base_filename σ1 Hvacant)
      as Hpromote.
    change (refused σ0) with (refused σ) in Harch.
    change (refused σ1) with (refused σ) in Hpromote.
    split_and!.
    + intros ?. by rewrite Harch, decide_True.
    + intros ??. by rewrite Harch, decide_False, decide_True.
    + intros ?? Hf. rewrite Hf in Hpromote.
      rewrite Harch, decide_False, decide_False by done. exact Hpromote.
    + intros new ?? Hf ?. rewrite Hf, decide_False, decide_True in Hpromote by done.
      rewrite Harch, decide_False, decide_False by done. exact Hpromote.
  - intros e σ' Hraise. rewrite Hrun in Hraise. split.
    + pose proof (klp_version_files timestamp folder_path file_path filename
                    base_filename σ0) as Hlp.
      rewrite Hraise in Hlp. simpl in Hlp. rewrite Hlp. apply lookup_insert_eq.
    + destruct (version_files_raise_inv _ _ _ _ _ _ _ _ Hraise) as (new & Ht & Hp).
      exists new. split; [exact Ht|exact Hp].
Qed.

(** The refused rename of [invoice.pdf] reaches the caller of
    [on_created]: the copy made before the failure is left at
    [invoice_v2024-05-01.pdf], the debounce entry stays, and nothing was
    printed. *)
Lemma move_failure_propagates_witness :
  on_created Scenario.env Scenario.self 100%float Scenario.today
    (Scenario.created "/home/u/Downloads/invoice (1).pdf") Scenario.disk_locked
  = (Raise (PermissionError "/home/u/Downloads/invoice.pdf"),
     copied "/home/u/Downloads/invoice.pdf"
       "/home/u/Downloads/invoice_v2024-05-01.pdf" "first"
       (set_last_processed
          (<["/home/u/Downloads/invoice (1).pdf" := 100%float]> ∅)
          Scenario.disk_locked)).
Proof.
  destruct (move_failure_propagates Scenario.env Scenario.self 100%float Scenario.today
           (Scenario.created "/home/u/Downloads/invoice (1).pdf")
           {| Cfg.path := "~/Downloads";
              Cfg.base_filenames :=
                [ {| Cfg.name := "statement.pdf" |};
                  {| Cfg.name := "invoice.pdf" |};
                  {| Cfg.name := "report.pdf" |} ] |}
           (patterns_for "statement.pdf" ++ take 2 (patterns_for "invoice.pdf"))
           (drop 3 (patterns_for "invoice.pdf") ++ patterns_for "report.pdf")
           (Re.RLit "invoice" ⋅ Re.RLit " (" ⋅ Re.RPlus Re.CDigit ⋅ Re.RLit ")"
              ⋅ Re.RLit ".pdf" ⋅ Re.REol)
           "invoice.pdf" Scenario.disk_locked) as (_ & Hincumbent & _).
  - reflexivity.
  - reflexivity.
  - reflexivity.
  - reflexivity.
  - reflexivity.
  - reflexivity.
  - reflexivity.
  - intros q Hq%list_elem_of_In. vm_compute in Hq.
    destruct Hq as [<-|[<-|[<-|[<-|[<-|[<-|[<-|[]]]]]]]]; reflexivity.
  - reflexivity.
  - discriminate.
  - destruct (Hincumbent "first" 0) as (_ & Hrefused & _).
    + reflexivity.
    + intros j Hj. inversion Hj.
    + reflexivity.
    + apply Hrefused.
      * vm_compute. set_solver.
      * vm_compute. set_solver.
Defined.

(** * The languages of the variant patterns *)

(** Every character of [s] is in the set [c]. *)
Fixpoint all_in (c : Re.cset) (s : string) : bool :=
  match s with
  | EmptyString => true
  | String a s' => Re.cset_mem c a && all_in c s'
  end.

(** What [$] accepts after the match: the end of the string, or a single
    newline before it. *)
Definition at_end (tail : string) : Prop := tail = "" ∨ tail = String "010" "".

(** The shape of every filename a pattern compiled from [name] and [ext]
    can match: [name] somewhere, [ext] at the end, no newline around. *)
Definition looks_like (name ext v : string) : Prop :=
  ∃ pre mid tail,
    v = pre +:+ name +:+ mid +:+ ext +:+ tail
    ∧ all_in Re.CAny pre = true ∧ all_in Re.CAny mid = true ∧ at_end tail.

Section languages.
Import PyStr Re.

Lemma all_in_app c s1 s2 : all_in c (s1 +:+ s2) = all_in c s1 && all_in c s2.
Proof.
  induction s1 as [|a s1 IH]; [done|].
  rewrite str_app_cons. simpl. by rewrite IH, andb_assoc.
Qed.

(** A digit is not a newline. *)
Lemma all_in_digit_any d : all_in CDigit d = true → all_in CAny d = true.
Proof.
  induction d as [|a d IH]; [done|]. simpl.
  intros [Ha Hd]%andb_true_iff. rewrite IH by done.
  destruct (decide (a = "010"%char)) as [->|Hne]; [done|].
  by rewrite bool_decide_eq_false_2.
Qed.

Lemma matches_lit_iff l s rest : matches (RLit l) s rest ↔ s = l +:+ rest.
Proof. split; [by inversion 1|intros ->; constructor]. Qed.

Lemma matches_set_iff c s rest :
  matches (RSet c) s rest ↔ ∃ a, cset_mem c a = true ∧ s = String a rest.
Proof. split; [inversion 1; eauto|intros (a & ? & ->); by constructor]. Qed.

Lemma matches_star_iff c s rest :
  matches (RStar c) s rest ↔ ∃ w, all_in c w = true ∧ s = w +:+ rest.
Proof.
  split.
  - intros H. remember (RStar c) as r eqn:Hr.
    induction H as [| |c' s|c' a s rest Hc _ IH| | | | | |]; try discriminate;
      injection Hr as ->.
    + by exists "".
    + destruct (IH eq_refl) as (w & Hw & ->).
      exists (String a w). simpl. by rewrite Hc, Hw.
  - intros (w & Hw & ->). induction w as [|a w IH]; [constructor|].
    simpl in Hw. apply andb_true_iff in Hw as [Ha Hw].
    rewrite str_app_cons. constructor; auto.
Qed.

Lemma matches_plus_iff c s rest :
  matches (RPlus c) s rest ↔ ∃ w, w ≠ "" ∧ all_in c w = true ∧ s = w +:+ rest.
Proof.
  split.
  - inversion 1 as [| | | |c' a s' rest' Hc Hs| | | | |]; subst.
    apply matches_star_iff in Hs as (w & Hw & ->).
    exists (String a w). simpl. by rewrite Hc, Hw.
  - intros ([|a w] & Hne & Hw & ->); [done|].
    simpl in Hw. apply andb_true_iff in Hw as [Ha Hw].
    rewrite str_app_cons. constructor; [done|]. apply matches_star_iff. eauto.
Qed.

Lemma matches_eol_iff s rest : matches REol s rest ↔ rest = s ∧ at_end s.
Proof.
  unfold at_end. split.
  - inversion 1; auto.
  - intros [-> [->| ->]]; constructor.
Qed.

Lemma matches_cat_iff r1 r2 s rest :
  matches (r1 ⋅ r2) s rest ↔ ∃ mid, matches r1 s mid ∧ matches r2 mid rest.
Proof. split; [inversion 1; eauto|intros (mid & ? & ?); econstructor; eauto]. Qed.

End languages.

Ltac invert_matches :=
  repeat match goal with
  | H : Re.matches (_ ⋅ _) _ _ |- _ => apply matches_cat_iff in H as (? & ? & ?)
  | H : Re.matches (Re.RLit _) _ _ |- _ => apply matches_lit_iff in H
  | H : Re.matches (Re.RSet _) _ _ |- _ => apply matches_set_iff in H as (? & ? & ?)
  | H : Re.matches (Re.RStar _) _ _ |- _ => apply matches_star_iff in H as (? & ? & ?)
  | H : Re.matches (Re.RPlus _) _ _ |- _ => apply matches_plus_iff in H as (? & ? & ? & ?)
  | H : Re.matches Re.REol _ _ |- _ => apply matches_eol_iff in H as [? ?]
  end; subst.

Ltac build_matches :=
  repeat first
    [ apply matches_cat_iff; eexists; split
    | apply matches_lit_iff; reflexivity
    | apply matches_eol_iff; split; [reflexivity|eassumption]
    | apply matches_plus_iff; eexists; split_and!; cycle 2;
        [reflexivity|eassumption|eassumption]
    | apply matches_star_iff; eexists; split; cycle 1; [reflexivity|eassumption]
    | apply matches_set_iff; eexists; split; [eassumption|reflexivity] ].

Section pattern_languages.
Import PyStr Re.

Lemma separator_mem a :
  cset_mem (COneOf [" "; "_"; "-"]%char) a = true ↔ a ∈ [" "; "_"; "-"]%char.
Proof. simpl. apply bool_decide_eq_true. Qed.

(** [^\((\d+)\) f $] *)
Lemma numbered_prefix_language f v :
  pmatch (RLit "(" ⋅ RPlus CDigit ⋅ RLit ")" ⋅ RLit f ⋅ REol) v = true
  ↔ ∃ d tail, d ≠ "" ∧ all_in CDigit d = true ∧ at_end tail
              ∧ v = "(" +:+ d +:+ ")" +:+ f +:+ tail.
Proof.
  rewrite pmatch_matches. split.
  - intros (rest & H). invert_matches. eauto 10.
  - intros (d & tail & Hne & Hd & Htail & ->). exists tail. build_matches.
Qed.

(** [^ name [ _-]copy\d* ext $] *)
Lemma copy_suffix_language name ext v :
  pmatch (RLit name ⋅ RSet (COneOf [" "; "_"; "-"]%char) ⋅ RLit "copy" ⋅ RStar CDigit
            ⋅ RLit ext ⋅ REol) v = true
  ↔ ∃ a d tail, a ∈ [" "; "_"; "-"]%char ∧ all_in CDigit d = true ∧ at_end tail
                ∧ v = name +:+ String a ("copy" +:+ d +:+ ext +:+ tail).
Proof.
  rewrite pmatch_matches. split.
  - intros (rest & H). invert_matches.
    match goal with H : cset_mem (COneOf _) _ = true |- _ =>
      apply separator_mem in H end.
    eauto 10.
  - intros (a & d & tail & Ha%separator_mem & Hd & Htail & ->). exists tail.
    build_matches.
Qed.

(** [^ name  \(\d+\) ext $] *)
Lemma parenthesized_counter_language name ext v :
  pmatch (RLit name ⋅ RLit " (" ⋅ RPlus CDigit ⋅ RLit ")" ⋅ RLit ext ⋅ REol) v = true
  ↔ ∃ d tail, d ≠ "" ∧ all_in CDigit d = true ∧ at_end tail
              ∧ v = name +:+ " (" +:+ d +:+ ")" +:+ ext +:+ tail.
Proof.
  rewrite pmatch_matches. split.
  - intros (rest & H). invert_matches. eauto 10.
  - intros (d & tail & Hne & Hd & Htail & ->). exists tail. build_matches.
Qed.

(** [^ name [ _-]\d+ ext $] *)
Lemma separator_digits_language name ext v :
  pmatch (RLit name ⋅ RSet (COneOf [" "; "_"; "-"]%char) ⋅ RPlus CDigit ⋅ RLit ext ⋅ REol)
    v = true
  ↔ ∃ a d tail, a ∈ [" "; "_"; "-"]%char ∧ d ≠ "" ∧ all_in CDigit d = true ∧ at_end tail
                ∧ v = name +:+ String a (d +:+ ext +:+ tail).
Proof.
  rewrite pmatch_matches. split.
  - intros (rest & H). invert_matches.
    match goal with H : cset_mem (COneOf _) _ = true |- _ =>
      apply separator_mem in H end.
    eauto 10.
  - intros (a & d & tail & Ha%separator_mem & Hne & Hd & Htail & ->). exists tail.
    build_matches.
Qed.

(** [^.* name .* ext $] *)
Lemma catch_all_language name ext v :
  pmatch (RStar CAny ⋅ RLit name ⋅ RStar CAny ⋅ RLit ext ⋅ REol) v = true
  ↔ looks_like name ext v.
Proof.
  rewrite pmatch_matches. unfold looks_like. split.
  - intros (rest & H). invert_matches. eauto 10.
  - intros (pre & mid & tail & -> & Hpre & Hmid & Htail). exists tail. build_matches.
Qed.

End pattern_languages.

(** * What the resolver accepts *)

(** A numbered or copied variant of the base filename [f], with any
    decimal counter: [(d)f], [name (d)ext], [name<sep>d ext] and
    [name<sep>copy[d]ext] for a separator among space, [_] and [-]. *)
Definition numbered_variant (f v : string) : Prop :=
  let name := (OsPath.splitext f).1 in
  let ext := (OsPath.splitext f).2 in
  (∃ d, d ≠ "" ∧ all_in Re.CDigit d = true
        ∧ (v = "(" +:+ d +:+ ")" +:+ f
           ∨ v = name +:+ " (" +:+ d +:+ ")" +:+ ext
           ∨ ∃ a, a ∈ [" "; "_"; "-"]%char ∧ v = name +:+ String a (d +:+ ext)))
  ∨ (∃ a d, a ∈ [" "; "_"; "-"]%char ∧ all_in Re.CDigit d = true
            ∧ v = name +:+ String a ("copy" +:+ d +:+ ext)).

Section acceptance.
Import PyStr OsPath Re.

Lemma at_end_nil : at_end "".
Proof. by left. Qed.

Lemma splitext_halves f : (splitext f).1 +:+ (splitext f).2 = f.
Proof. apply splitext_app. by destruct (splitext f). Qed.

Lemma patterns_for_eq f :
  patterns_for f =
    [ (RLit "(" ⋅ RPlus CDigit ⋅ RLit ")" ⋅ RLit f ⋅ REol, f);
      (RLit (splitext f).1 ⋅ RSet (COneOf [" "; "_"; "-"]%char) ⋅ RLit "copy"
         ⋅ RStar CDigit ⋅ RLit (splitext f).2 ⋅ REol, f);
      (RLit (splitext f).1 ⋅ RLit " (" ⋅ RPlus CDigit ⋅ RLit ")"
         ⋅ RLit (splitext f).2 ⋅ REol, f);
      (RLit (splitext f).1 ⋅ RSet (COneOf [" "; "_"; "-"]%char) ⋅ RPlus CDigit
         ⋅ RLit (splitext f).2 ⋅ REol, f);
      (RStar CAny ⋅ RLit (splitext f).1 ⋅ RStar CAny ⋅ RLit (splitext f).2 ⋅ REol, f) ].
Proof. unfold patterns_for. by destruct (splitext f). Qed.

Lemma separator_not_newline a :
  a ∈ [" "; "_"; "-"]%char → cset_mem CAny a = true.
Proof.
  rewrite !elem_of_cons, elem_of_nil. by intros [->|[->|[->|[]]]].
Qed.

(** Whatever one of the five patterns of [f] matches, the catch-all
    matches too; so a filename matches some pattern of [f] exactly when it
    has the catch-all's shape. *)
Lemma some_pattern_matches_iff f v :
  (∃ q, q ∈ patterns_for f ∧ pmatch q.1 v = true)
  ↔ looks_like (splitext f).1 (splitext f).2 v.
Proof.
  rewrite patterns_for_eq. split.
  - intros (q & Hq & Hm). rewrite !elem_of_cons, elem_of_nil in Hq.
    destruct Hq as [->|[->|[->|[->|[->|[]]]]]]; simpl in Hm.
    + apply numbered_prefix_language in Hm as (d & tail & _ & Hd & Htail & ->).
      exists ("(" +:+ d +:+ ")"), "", tail. split_and!; [| |done|done].
      * rewrite <- (splitext_halves f) at 1. by rewrite !str_app_assoc.
      * rewrite (all_in_app CAny "(" (d +:+ ")")), all_in_app, (all_in_digit_any d) by done.
        done.
    + apply copy_suffix_language in Hm as (a & d & tail & Ha & Hd & Htail & ->).
      exists "", (String a ("copy" +:+ d)), tail. split_and!; [|done| |done].
      * by rewrite str_app_nil_l, !str_app_cons, ?str_app_assoc.
      * cbn [all_in]. rewrite separator_not_newline by done.
        by rewrite (all_in_app CAny "copy" d), (all_in_digit_any d).
    + apply parenthesized_counter_language in Hm as (d & tail & _ & Hd & Htail & ->).
      exists "", (" (" +:+ d +:+ ")"), tail. split_and!; [|done| |done].
      * by rewrite str_app_nil_l, !str_app_assoc.
      * rewrite (all_in_app CAny " (" (d +:+ ")")), all_in_app, (all_in_digit_any d) by done.
        done.
    + apply separator_digits_language in Hm as (a & d & tail & Ha & _ & Hd & Htail & ->).
      exists "", (String a d), tail. split_and!; [|done| |done].
      * by rewrite str_app_nil_l, !str_app_cons, ?str_app_assoc.
      * cbn [all_in]. by rewrite separator_not_newline, (all_in_digit_any d).
    + by apply catch_all_language.
  - intros H%catch_all_language. eexists (_, _). split; [|exact H].
    do 4 apply list_elem_of_further. apply list_elem_of_here.
Qed.

End acceptance.

Section resolver_outcomes.
Import PyStr OsPath Re.

Lemma folder_patterns_cons base_config bases :
  folder_patterns (base_config :: bases)
  = patterns_for (Cfg.name base_config) ++ folder_patterns bases.
Proof. by rewrite !folder_patterns_flat_map. Qed.

Lemma elem_of_folder_patterns q bases :
  q ∈ folder_patterns bases
  ↔ ∃ base_config, base_config ∈ bases ∧ q ∈ patterns_for (Cfg.name base_config).
Proof.
  rewrite folder_patterns_flat_map, list_elem_of_In, in_flat_map.
  by setoid_rewrite list_elem_of_In.
Qed.

Lemma endswith_app w p : endswith (w +:+ p) p = true.
Proof.
  induction w as [|a w IH].
  - rewrite str_app_nil_l. destruct p; simpl; by rewrite ?decide_True.
  - rewrite str_app_cons. simpl. by case_decide.
Qed.

(** A filename of the catch-all's shape ends with the extension, up to a
    final newline. *)
Lemma looks_like_endswith name ext v :
  looks_like name ext v →
  endswith v ext = true ∨ endswith v (ext +:+ String "010" "") = true.
Proof.
  intros (pre & mid & tail & -> & _ & _ & [->| ->]).
  - left. rewrite str_app_nil_r, <- !str_app_assoc. apply endswith_app.
  - right. rewrite <- !str_app_assoc. rewrite str_app_assoc. apply endswith_app.
Qed.

(** The loop over the patterns of a folder either does nothing or promotes
    to one of the folder's base filenames, of which the filename has the
    shape. *)
Lemma check_patterns_outcome timestamp file_path v folder_path bases :
  check_patterns timestamp (folder_patterns bases) file_path v folder_path = ret tt
  ∨ ∃ base_config,
      base_config ∈ bases ∧ v ≠ Cfg.name base_config
      ∧ looks_like (splitext (Cfg.name base_config)).1
          (splitext (Cfg.name base_config)).2 v
      ∧ check_patterns timestamp (folder_patterns bases) file_path v folder_path
        = version_files timestamp folder_path file_path v (Cfg.name base_config).
Proof.
  induction bases as [|bc bases IH].
  - by left.
  - rewrite folder_patterns_cons.
    destruct (decide (Exists (λ q, pmatch q.1 v = true) (patterns_for (Cfg.name bc))))
      as [Hsome|Hnone].
    + apply Exists_exists in Hsome.
      rewrite (check_patterns_same_base _ _ _ _ (Cfg.name bc))
        by (done || apply patterns_for_base).
      case_decide; [|by left]. right. exists bc. split_and!; [by left|done| |done].
      by apply some_pattern_matches_iff.
    + rewrite check_patterns_skip.
      * destruct IH as [IH|(bc' & Hin & ? & ? & ?)]; [by left|].
        right. exists bc'. split_and!; [by right|done..].
      * intros q Hq. destruct (pmatch q.1 v) eqn:Hm; [|done].
        destruct Hnone. apply Exists_exists. eauto.
Qed.

Lemma numbered_variant_matches f v :
  numbered_variant f v →
  (∃ q, q ∈ patterns_for f ∧ pmatch q.1 v = true) ∧ v ≠ f.
Proof.
  assert (∀ x y : string, x ≠ "" → x +:+ y ≠ y) as Hlonger.
  { intros [|a x] y Hx; [done|]. apply str_app_ne_self_l. }
  unfold numbered_variant. rewrite patterns_for_eq.
  intros [(d & Hne & Hd & [->|[->|(a & Ha & ->)]])|(a & d & Ha & Hd & ->)]; split.
  - eexists (_, _). split; [apply list_elem_of_here|].
    apply numbered_prefix_language. exists d, "". rewrite str_app_nil_r.
    split_and!; auto using at_end_nil.
  - rewrite <- !str_app_assoc. by apply Hlonger.
  - eexists (_, _). split; [do 2 apply list_elem_of_further; apply list_elem_of_here|].
    apply parenthesized_counter_language. exists d, "". rewrite str_app_nil_r.
    split_and!; auto using at_end_nil.
  - rewrite <- (splitext_halves f) at 3.
    intros H%(inj (String.app _)). rewrite <- !str_app_assoc in H. by apply Hlonger in H.
  - eexists (_, _). split; [do 3 apply list_elem_of_further; apply list_elem_of_here|].
    apply separator_digits_language. exists a, d, "". rewrite str_app_nil_r.
    split_and!; auto using at_end_nil.
  - rewrite <- (splitext_halves f) at 3.
    intros H%(inj (String.app _)). by apply str_app_ne_self_l in H.
  - eexists (_, _). split; [apply list_elem_of_further, list_elem_of_here|].
    apply copy_suffix_language. exists a, d, "". rewrite str_app_nil_r.
    split_and!; auto using at_end_nil.
  - rewrite <- (splitext_halves f) at 3.
    intros H%(inj (String.app _)). rewrite <- str_app_assoc in H.
    by apply str_app_ne_self_l in H.
Qed.

End resolver_outcomes.

(** X1. The five patterns compiled for a base filename [f], split into
    [name] and [ext], accept exactly: [(d)f]; [name<sep>copy<digits>ext];
    [name (d)ext]; [name<sep>d ext]; and any filename holding [name]
    somewhere and ending in [ext] with no newline before or between them,
    where [d] is a non-empty string of digits, [<sep>] is a space, [_] or
    [-], and each may be followed by one final newline. *)
Theorem patterns_accept_exactly (f v : string) :
  let name := (OsPath.splitext f).1 in
  let ext := (OsPath.splitext f).2 in
  ∃ p1 p2 p3 p4 p5,
    patterns_for f = [(p1, f); (p2, f); (p3, f); (p4, f); (p5, f)]
    ∧ (Re.pmatch p1 v = true
       ↔ ∃ d tail, d ≠ "" ∧ all_in Re.CDigit d = true ∧ at_end tail
                   ∧ v = "(" +:+ d +:+ ")" +:+ f +:+ tail)
    ∧ (Re.pmatch p2 v = true
       ↔ ∃ a d tail, a ∈ [" "; "_"; "-"]%char ∧ all_in Re.CDigit d = true ∧ at_end tail
                     ∧ v = name +:+ String a ("copy" +:+ d +:+ ext +:+ tail))
    ∧ (Re.pmatch p3 v = true
       ↔ ∃ d tail, d ≠ "" ∧ all_in Re.CDigit d = true ∧ at_end tail
                   ∧ v = name +:+ " (" +:+ d +:+ ")" +:+ ext +:+ tail)
    ∧ (Re.pmatch p4 v = true
       ↔ ∃ a d tail, a ∈ [" "; "_"; "-"]%char ∧ d ≠ "" ∧ all_in Re.CDigit d = true
                     ∧ at_end tail ∧ v = name +:+ String a (d +:+ ext +:+ tail))
    ∧ (Re.pmatch p5 v = true ↔ looks_like name ext v).
Proof.
  intros name ext. subst name ext. rewrite patterns_for_eq.
  eexists _, _, _, _, _. split; [reflexivity|]. split_and!.
  - apply numbered_prefix_language.
  - apply copy_suffix_language.
  - apply parenthesized_counter_language.
  - apply separator_digits_language.
  - apply catch_all_language.
Qed.

(** X2. For a folder whose patterns were compiled from the base filenames
    [bases], the resolver either does nothing or promotes the file to one
    of those base filenames: one that differs from the filename and whose
    name part and extension the filename contains, in that order, the
    extension last. *)
Theorem check_file_match_promotes_only_lookalikes
    (self : handler) (timestamp file_path v folder_path : string)
    (bases : list Cfg.base_config) (σ : state) :
  file_patterns self !! folder_path = Some (folder_patterns bases) →
  check_file_match self timestamp file_path v folder_path σ = (Ok tt, σ)
  ∨ ∃ base_config,
      base_config ∈ bases
      ∧ v ≠ Cfg.name base_config
      ∧ Re.search version_marker v = false
      ∧ looks_like (OsPath.splitext (Cfg.name base_config)).1
          (OsPath.splitext (Cfg.name base_config)).2 v
      ∧ check_file_match self timestamp file_path v folder_path σ
        = version_files timestamp folder_path file_path v (Cfg.name base_config) σ.
Proof.
  intros Hpats. unfold check_file_match.
  destruct (Re.search version_marker v) eqn:Hmark; [by left|].
  rewrite Hpats. simpl.
  destruct (check_patterns_outcome timestamp file_path v folder_path bases)
    as [->|(bc & Hin & Hne & Hlike & ->)]; [by left|].
  right. exists bc. by split_and!.
Qed.

(** Under the default configuration, what happens to
    [my invoice-final.pdf] is nothing, or a promotion to one of the three
    base filenames that it resembles. *)
Lemma check_file_match_promotes_only_lookalikes_witness :
  check_file_match Scenario.self Scenario.today
    "/home/u/Downloads/my invoice-final.pdf" "my invoice-final.pdf"
    Scenario.downloads Scenario.disk0 = (Ok tt, Scenario.disk0)
  ∨ ∃ base_config,
      base_config ∈ [ {| Cfg.name := "statement.pdf" |}; {| Cfg.name := "invoice.pdf" |};
                      {| Cfg.name := "report.pdf" |} ]
      ∧ "my invoice-final.pdf" ≠ Cfg.name base_config
      ∧ Re.search version_marker "my invoice-final.pdf" = false
      ∧ looks_like (OsPath.splitext (Cfg.name base_config)).1
          (OsPath.splitext (Cfg.name base_config)).2 "my invoice-final.pdf"
      ∧ check_file_match Scenario.self Scenario.today
          "/home/u/Downloads/my invoice-final.pdf" "my invoice-final.pdf"
          Scenario.downloads Scenario.disk0
        = version_files Scenario.today Scenario.downloads
            "/home/u/Downloads/my invoice-final.pdf" "my invoice-final.pdf"
            (Cfg.name base_config) Scenario.disk0.
Proof.
  apply (check_file_match_promotes_only_lookalikes Scenario.self Scenario.today
           "/home/u/Downloads/my invoice-final.pdf" "my invoice-final.pdf"
           Scenario.downloads
           [ {| Cfg.name := "statement.pdf" |}; {| Cfg.name := "invoice.pdf" |};
             {| Cfg.name := "report.pdf" |} ] Scenario.disk0).
  reflexivity.
Defined.

(** X3. A file whose name ends with the extension of none of the folder's
    base filenames (not even before a final newline) is never promoted:
    the resolver leaves the state as it is. *)
Theorem other_extensions_ignored
    (self : handler) (timestamp file_path v folder_path : string)
    (bases : list Cfg.base_config) (σ : state) :
  file_patterns self !! folder_path = Some (folder_patterns bases) →
  (∀ base_config, base_config ∈ bases →
     PyStr.endswith v (OsPath.splitext (Cfg.name base_config)).2 = false
     ∧ PyStr.endswith v ((OsPath.splitext (Cfg.name base_config)).2
                          +:+ String "010" "") = false) →
  check_file_match self timestamp file_path v folder_path σ = (Ok tt, σ).
Proof.
  intros Hpats Hext. unfold check_file_match.
  destruct (Re.search version_marker v); [done|]. rewrite Hpats. simpl.
  rewrite check_patterns_none; [done|].
  intros q (bc & Hin & Hq)%elem_of_folder_patterns.
  destruct (Re.pmatch q.1 v) eqn:Hm; [|done].
  assert (looks_like (OsPath.splitext (Cfg.name bc)).1
            (OsPath.splitext (Cfg.name bc)).2 v) as Hlike
    by (apply some_pattern_matches_iff; eauto).
  destruct (Hext bc Hin) as [H1 H2].
  apply looks_like_endswith in Hlike as [H|H]; congruence.
Qed.

(** [invoice (1).txt] is not promoted to [invoice.pdf]. *)
Lemma other_extensions_ignored_witness :
  check_file_match Scenario.self Scenario.today
    "/home/u/Downloads/invoice (1).txt" "invoice (1).txt"
    Scenario.downloads Scenario.disk0 = (Ok tt, Scenario.disk0).
Proof.
  apply (other_extensions_ignored Scenario.self Scenario.today
           "/home/u/Downloads/invoice (1).txt" "invoice (1).txt" Scenario.downloads
           [ {| Cfg.name := "statement.pdf" |}; {| Cfg.name := "invoice.pdf" |};
             {| Cfg.name := "report.pdf" |} ] Scenario.disk0).
  - reflexivity.
  - intros bc Hin. rewrite !elem_of_cons, elem_of_nil in Hin.
    destruct Hin as [->|[->|[->|[]]]]; split; reflexivity.
Defined.

(** X4. Every numbered or copied variant of a configured base filename
    [f], whatever its decimal counter, matches a pattern of [f] and differs
    from [f]; when it carries no version marker and no pattern of an
    earlier-configured base filename matches it, the resolver promotes it
    to [f]. *)
Theorem numbered_variants_promoted
    (self : handler) (timestamp file_path folder_path : string)
    (earlier later : list Cfg.base_config) (f v : string) :
  file_patterns self !! folder_path
    = Some (folder_patterns (earlier ++ {| Cfg.name := f |} :: later)) →
  numbered_variant f v →
  ((∃ q, q ∈ patterns_for f ∧ Re.pmatch q.1 v = true) ∧ v ≠ f)
  ∧ (Re.search version_marker v = false →
     (∀ q, q ∈ folder_patterns earlier → Re.pmatch q.1 v = false) →
     check_file_match self timestamp file_path v folder_path
     = version_files timestamp folder_path file_path v f).
Proof.
  intros Hpats Hv.
  destruct (numbered_variant_matches f v Hv) as [Hmatch Hne].
  split; [done|]. intros Hmark Hearlier.
  unfold check_file_match. rewrite Hmark, Hpats. simpl.
  rewrite folder_patterns_split, check_patterns_skip by done.
  rewrite (check_patterns_same_base _ _ _ _ f) by (done || apply patterns_for_base).
  by rewrite decide_True.
Qed.

(** [invoice-copy12.pdf] is promoted to [invoice.pdf]. *)
Lemma numbered_variants_promoted_witness :
  ((∃ q, q ∈ patterns_for "invoice.pdf" ∧ Re.pmatch q.1 "invoice-copy12.pdf" = true)
   ∧ "invoice-copy12.pdf" ≠ "invoice.pdf")
  ∧ check_file_match Scenario.self Scenario.today
      "/home/u/Downloads/invoice-copy12.pdf" "invoice-copy12.pdf" Scenario.downloads
    = version_files Scenario.today Scenario.downloads
        "/home/u/Downloads/invoice-copy12.pdf" "invoice-copy12.pdf" "invoice.pdf".
Proof.
  destruct (numbered_variants_promoted Scenario.self Scenario.today
              "/home/u/Downloads/invoice-copy12.pdf" Scenario.downloads
              [ {| Cfg.name := "statement.pdf" |} ] [ {| Cfg.name := "report.pdf" |} ]
              "invoice.pdf" "invoice-copy12.pdf" eq_refl) as [Hmatch Hpromote].
  { right. exists "-"%char, "12". split_and!; [|reflexivity|reflexivity].
    do 2 apply list_elem_of_further. apply list_elem_of_here. }
  split; [exact Hmatch|]. apply Hpromote; [reflexivity|].
  intros q Hq%list_elem_of_In. vm_compute in Hq.
  destruct Hq as [<-|[<-|[<-|[<-|[<-|[]]]]]]; reflexivity.
Defined.

(** * Compiling the patterns *)

(** X5. [prepare_patterns] keys the patterns by expanded folder path: a
    path that no configured folder expands to has no entry, and when
    several configured folders expand to the same path, the entry holds
    the patterns of the last of them alone (each folder entry resets the
    list before extending it). *)
Theorem prepare_patterns_last_wins
    (env : OsPath.os_env) (cfg : Cfg.config) (p : string) :
  file_patterns (init env cfg) !! p
  = (λ folder_config, folder_patterns (Cfg.base_filenames folder_config))
      <$> last (filter (λ folder_config,
                          OsPath.expanduser env (Cfg.path folder_config) = p)
                  (Cfg.folders cfg)).
Proof.
  simpl. unfold prepare_patterns. generalize (Cfg.folders cfg). clear cfg.
  induction l as [|x l IH] using rev_ind; [done|].
  rewrite fold_left_app, filter_app. simpl.
  destruct (decide (OsPath.expanduser env (Cfg.path x) = p)) as [Hp|Hp].
  - rewrite filter_singleton_True by done. rewrite last_snoc. simpl.
    rewrite Hp. apply lookup_insert_eq.
  - rewrite filter_singleton_False by done. rewrite app_nil_r.
    by rewrite lookup_insert_ne.
Qed.

(** * What an event can do to the disk *)

(** How the world may change while an event is handled: every content on
    disk stays on disk (perhaps under another name), the number of files
    does not decrease, the effects so far are extended by moves and copies
    that replace nothing, and the refused paths are as before.  Nothing is
    said about [last_processed]. *)
Definition evolves (σ σ' : state) : Prop :=
  (∀ content, (∃ p, fs σ !! p = Some content) → ∃ p', fs σ' !! p' = Some content)
  ∧ size (fs σ) ≤ size (fs σ')
  ∧ (∃ new, trace σ' = trace σ ++ new ∧ Forall replaces_nothing new)
  ∧ refused σ' = refused σ.

(** A computation that lets the world evolve, however it ends. *)
Definition obeys {A} (m : M A) : Prop := ∀ σ, evolves σ (m σ).2.

Section evolution.

Lemma evolves_refl σ : evolves σ σ.
Proof.
  split_and!; [done|done| |done]. exists []. by rewrite app_nil_r.
Qed.

Lemma evolves_trans σ1 σ2 σ3 : evolves σ1 σ2 → evolves σ2 σ3 → evolves σ1 σ3.
Proof.
  intros (Hc1 & Hs1 & (n1 & Ht1 & Hn1) & Hr1) (Hc2 & Hs2 & (n2 & Ht2 & Hn2) & Hr2).
  split_and!.
  - intros c Hc. by apply Hc2, Hc1.
  - lia.
  - exists (n1 ++ n2). rewrite Ht2, Ht1, <- app_assoc. split; [done|].
    by apply Forall_app.
  - congruence.
Qed.

Lemma evolves_set_last_processed m σ : evolves σ (set_last_processed m σ).
Proof.
  split_and!; [done|done| |done]. exists []. simpl. by rewrite app_nil_r.
Qed.

(** Moving a file to a vacant path and printing a line lets the world
    evolve. *)
Lemma evolves_moved src dst content line σ :
  fs σ !! src = Some content → fs σ !! dst = None →
  evolves σ (emit (EPrint line)
               (emit (EMove src dst false)
                  (set_fs (<[dst := content]> (delete src (fs σ))) σ))).
Proof.
  intros Hs Hd. assert (src ≠ dst) as Hne by congruence.
  split_and!; simpl.
  - intros c [p Hp]. destruct (decide (p = src)) as [->|Hp'].
    + exists dst. rewrite lookup_insert_eq. congruence.
    + exists p. rewrite lookup_insert_ne by congruence.
      by rewrite lookup_delete_ne.
  - rewrite map_size_insert_None by by rewrite lookup_delete_ne.
    rewrite <- (insert_id (fs σ) src content Hs) at 1.
    rewrite <- insert_delete_eq.
    by rewrite map_size_insert_None by apply lookup_delete_eq.
  - exists [EMove src dst false; EPrint line]. rewrite <- app_assoc.
    split; [done|]. by repeat constructor.
  - done.
Qed.

(** So does the copy a failed move leaves at a vacant path. *)
Lemma evolves_copied src dst content σ :
  fs σ !! dst = None → evolves σ (copied src dst content σ).
Proof.
  intros Hd. split_and!.
  - intros c [p Hp]. exists p. rewrite fs_copied, lookup_insert_ne; [done|congruence].
  - rewrite fs_copied, map_size_insert_None by done. lia.
  - exists [ECopy src dst false]. split; [apply trace_copied|]. by repeat constructor.
  - done.
Qed.

Lemma obeys_ret {A} (a : A) : obeys (mret a).
Proof. intros σ. apply evolves_refl. Qed.

Lemma obeys_bind {A B} (m : M A) (k : A → M B) :
  obeys m → (∀ a, obeys (k a)) → obeys (m ≫= k).
Proof.
  intros Hm Hk σ. pose proof (Hm σ) as Hev. unfold_M.
  destruct (m σ) as [[a|e|] σ']; simpl in *; [|done..].
  eapply evolves_trans; [exact Hev|apply Hk].
Qed.

Lemma obeys_for_each {A} (l : list A) (body : A → M unit) :
  (∀ x, obeys (body x)) → obeys (for_each l body).
Proof.
  intros H. induction l as [|x l IH]; simpl; [apply obeys_ret|].
  apply obeys_bind; [apply H|]. by intros _.
Qed.

End evolution.

Section engine_outcomes.
Import OsPath.
Context (timestamp folder_path file_path filename base_filename : string).

Abbreviation base_path := (join folder_path base_filename).
Abbreviation name := (splitext base_filename).1.
Abbreviation ext := (splitext base_filename).2.
Abbreviation fname_at := (versioned_filename_at name timestamp ext).
Abbreviation path_at := (versioned_path_at folder_path name timestamp ext).
Abbreviation promote :=
  (shutil_move file_path base_path;; print (Updated filename base_filename)).
Abbreviation run :=
  (version_files timestamp folder_path file_path filename base_filename).

Lemma evolves_archived σ old versioned_path versioned_filename :
  fs σ !! base_path = Some old → fs σ !! versioned_path = None →
  evolves σ (archived base_path versioned_path base_filename versioned_filename old σ).
Proof. intros. by apply evolves_moved. Qed.

Lemma evolves_promoted σ content :
  fs σ !! file_path = Some content → fs σ !! base_path = None →
  evolves σ (promoted file_path base_path filename base_filename content σ).
Proof. intros. by apply evolves_moved. Qed.

(** The promote step onto a vacant base path lets the world evolve. *)
Lemma promote_evolves σ : fs σ !! base_path = None → evolves σ (promote σ).2.
Proof.
  intros Hb. rewrite (promote_step folder_path file_path filename base_filename σ Hb).
  destruct (fs σ !! file_path) as [c|] eqn:Hf; [|apply evolves_refl].
  destruct (decide (base_path ∈ refused σ)); [apply evolves_refl|].
  destruct (decide (file_path ∈ refused σ)); cbn [snd].
  - by apply evolves_copied.
  - by apply evolves_promoted.
Qed.

Lemma version_files_obeys : obeys run.
Proof.
  intros σ. destruct (fs σ !! base_path) as [old|] eqn:Hb.
  - destruct (first_free folder_path name timestamp ext (fs σ))
      as (n & _ & Hfree & Htaken).
    rewrite (version_files_incumbent timestamp folder_path file_path filename
               base_filename σ old n Hb Htaken Hfree).
    destruct (decide (path_at n ∈ refused σ)); [apply evolves_refl|].
    destruct (decide (base_path ∈ refused σ)); cbn [snd].
    + by apply evolves_copied.
    + eapply evolves_trans; [by apply evolves_archived|].
      apply promote_evolves, fs_archived_base; eauto.
  - rewrite version_files_absent by done. by apply promote_evolves.
Qed.

End engine_outcomes.

Section handler_outcomes.
Context (env : OsPath.os_env) (self : handler) (current_time : float).
Context (timestamp : string).

Lemma check_patterns_obeys patterns file_path filename folder_path :
  obeys (check_patterns timestamp patterns file_path filename folder_path).
Proof.
  induction patterns as [|[p b] patterns IH]; simpl; [apply obeys_ret|].
  destruct (Re.pmatch p filename); [|done].
  case_decide; [apply version_files_obeys|apply obeys_ret].
Qed.

Lemma check_file_match_obeys file_path filename folder_path :
  obeys (check_file_match self timestamp file_path filename folder_path).
Proof.
  unfold check_file_match.
  destruct (Re.search version_marker filename); [apply obeys_ret|].
  apply check_patterns_obeys.
Qed.

Lemma after_debounce_obeys file_path :
  obeys (after_debounce env self timestamp file_path).
Proof.
  unfold after_debounce. destruct (_ || _); [apply obeys_ret|].
  apply obeys_for_each. intros fc.
  case_decide; [apply check_file_match_obeys|apply obeys_ret].
Qed.

Lemma process_file_event_obeys file_path :
  obeys (process_file_event env self current_time timestamp file_path).
Proof.
  intros σ.
  destruct (process_file_event_cases env self current_time timestamp file_path σ)
    as [->| ->].
  - apply evolves_refl.
  - eapply evolves_trans; [apply evolves_set_last_processed|].
    apply after_debounce_obeys.
Qed.

Lemma on_created_obeys event :
  obeys (on_created env self current_time timestamp event).
Proof.
  unfold on_created.
  destruct (is_directory event); [apply obeys_ret|apply process_file_event_obeys].
Qed.

Lemma on_moved_obeys event :
  obeys (on_moved env self current_time timestamp event).
Proof.
  unfold on_moved.
  destruct (is_directory event); [apply obeys_ret|apply process_file_event_obeys].
Qed.

End handler_outcomes.

(** X6. No event loses a file: whatever [on_created] or [on_moved] does,
    and whether it returns or raises, every content that was on disk is
    still on disk afterwards (possibly under another name), and the number
    of files has not gone down (a failed move can leave a copy, so it can
    go up). *)
Theorem events_keep_every_file
    (env : OsPath.os_env) (self : handler) (current_time : float)
    (timestamp : string) (event : event) (σ : state) :
  ((∀ content, (∃ p, fs σ !! p = Some content) →
      ∃ p', fs (on_created env self current_time timestamp event σ).2 !! p'
            = Some content)
   ∧ size (fs σ) ≤ size (fs (on_created env self current_time timestamp event σ).2))
  ∧ ((∀ content, (∃ p, fs σ !! p = Some content) →
        ∃ p', fs (on_moved env self current_time timestamp event σ).2 !! p'
              = Some content)
     ∧ size (fs σ) ≤ size (fs (on_moved env self current_time timestamp event σ).2)).
Proof.
  destruct (on_created_obeys env self current_time timestamp event σ)
    as (Hc1 & Hs1 & _).
  destruct (on_moved_obeys env self current_time timestamp event σ)
    as (Hc2 & Hs2 & _).
  by split_and!.
Qed.

(** X7. No event overwrites a file: every move that [on_created] or
    [on_moved] performs, in any number of promotions, goes to a path at
    which no file existed. *)
Theorem events_never_replace_a_file
    (env : OsPath.os_env) (self : handler) (current_time : float)
    (timestamp : string) (event : event) (σ : state) :
  (∃ new, trace (on_created env self current_time timestamp event σ).2
          = trace σ ++ new
          ∧ Forall replaces_nothing new)
  ∧ (∃ new, trace (on_moved env self current_time timestamp event σ).2
            = trace σ ++ new
            ∧ Forall replaces_nothing new).
Proof.
  destruct (on_created_obeys env self current_time timestamp event σ)
    as (_ & _ & Ht1 & _).
  destruct (on_moved_obeys env self current_time timestamp event σ)
    as (_ & _ & Ht2 & _).
  by split.
Qed.

(** * What a promotion leaves on disk *)

(** X9. A promotion over an incumbent, when no path is refused: with the
    old file at the base path and the incoming file elsewhere,
    [version_files] returns, and afterwards the base path holds the
    incoming content, the first free versioned path holds the old content,
    the incoming path is gone, every other path is as before, and the two
    lines were printed after their moves. *)
Theorem version_files_replaces_and_archives
    (timestamp folder_path file_path filename base_filename : string)
    (σ : state) (old new : string) :
  let base_path := OsPath.join folder_path base_filename in
  let name := (OsPath.splitext base_filename).1 in
  let ext := (OsPath.splitext base_filename).2 in
  fs σ !! base_path = Some old →
  fs σ !! file_path = Some new →
  file_path ≠ base_path →
  refused σ = ∅ →
  ∃ n σ',
    let versioned_filename := versioned_filename_at name timestamp ext n in
    let versioned_path := versioned_path_at folder_path name timestamp ext n in
    version_files timestamp folder_path file_path filename base_filename σ = (Ok tt, σ')
    ∧ fs σ !! versioned_path = None
    ∧ (∀ j, j < n →
         is_Some (fs σ !! versioned_path_at folder_path name timestamp ext j))
    ∧ fs σ' !! base_path = Some new
    ∧ fs σ' !! versioned_path = Some old
    ∧ fs σ' !! file_path = None
    ∧ (∀ p, p ≠ base_path → p ≠ versioned_path → p ≠ file_path →
         fs σ' !! p = fs σ !! p)
    ∧ trace σ' = trace σ ++
        [ EMove base_path versioned_path false;
          EPrint (Versioned base_filename versioned_filename);
          EMove file_path base_path false;
          EPrint (Updated filename base_filename) ].
Proof.
  intros base_path name ext Hb Hf Hne Href. subst base_path name ext.
  destruct (first_free folder_path (OsPath.splitext base_filename).1 timestamp
              (OsPath.splitext base_filename).2 (fs σ)) as (n & _ & Hfree & Htaken).
  set (vp := versioned_path_at folder_path (OsPath.splitext base_filename).1 timestamp
               (OsPath.splitext base_filename).2 n) in *.
  set (vf := versioned_filename_at (OsPath.splitext base_filename).1 timestamp
               (OsPath.splitext base_filename).2 n).
  set (bp := OsPath.join folder_path base_filename) in *.
  assert (∀ p, p ∉ refused σ) as Hfree_all by (intros p; rewrite Href; set_solver).
  assert (file_path ≠ vp) as Hfv by congruence.
  assert (bp ≠ vp) as Hbv by congruence.
  exists n, (promoted file_path bp filename base_filename new
               (archived bp vp base_filename vf old σ)).
  split_and!.
  - rewrite (version_files_present timestamp folder_path file_path filename
               base_filename σ old n Hb Htaken Hfree).
    erewrite bind_Ok; [|by erewrite bind_Ok by by eapply shutil_move_fresh].
    erewrite bind_Ok; [done|]. rewrite (shutil_move_fresh _ _ new); [done|..].
    + unfold archived. simpl. rewrite lookup_insert_ne, lookup_delete_ne by done. done.
    + apply Hfree_all.
    + apply Hfree_all.
    + apply fs_archived_base; eauto.
  - done.
  - done.
  - unfold promoted. simpl. apply lookup_insert_eq.
  - unfold promoted, archived. simpl.
    rewrite lookup_insert_ne, lookup_delete_ne by done. apply lookup_insert_eq.
  - unfold promoted. simpl. rewrite lookup_insert_ne by done. apply lookup_delete_eq.
  - intros p Hp1 Hp2 Hp3. unfold promoted, archived. simpl.
    rewrite lookup_insert_ne, lookup_delete_ne by done.
    by rewrite lookup_insert_ne, lookup_delete_ne.
  - by rewrite trace_promoted, trace_archived, <- app_assoc.
Qed.

(** The invoice scenario: both files end up present. *)
Lemma version_files_replaces_and_archives_witness :
  ∃ n σ',
    version_files Scenario.today Scenario.downloads
      "/home/u/Downloads/invoice (1).pdf" "invoice (1).pdf" "invoice.pdf"
      Scenario.disk0 = (Ok tt, σ')
    ∧ fs Scenario.disk0
        !! versioned_path_at Scenario.downloads (OsPath.splitext "invoice.pdf").1
             Scenario.today (OsPath.splitext "invoice.pdf").2 n = None
    ∧ (∀ j, j < n →
         is_Some (fs Scenario.disk0
                    !! versioned_path_at Scenario.downloads
                         (OsPath.splitext "invoice.pdf").1 Scenario.today
                         (OsPath.splitext "invoice.pdf").2 j))
    ∧ fs σ' !! OsPath.join Scenario.downloads "invoice.pdf" = Some "second"
    ∧ fs σ' !! versioned_path_at Scenario.downloads (OsPath.splitext "invoice.pdf").1
                 Scenario.today (OsPath.splitext "invoice.pdf").2 n = Some "first"
    ∧ fs σ' !! "/home/u/Downloads/invoice (1).pdf" = None
    ∧ (∀ p, p ≠ OsPath.join Scenario.downloads "invoice.pdf" →
            p ≠ versioned_path_at Scenario.downloads (OsPath.splitext "invoice.pdf").1
                  Scenario.today (OsPath.splitext "invoice.pdf").2 n →
            p ≠ "/home/u/Downloads/invoice (1).pdf" →
            fs σ' !! p = fs Scenario.disk0 !! p)
    ∧ trace σ' = trace Scenario.disk0 ++
        [ EMove (OsPath.join Scenario.downloads "invoice.pdf")
            (versioned_path_at Scenario.downloads (OsPath.splitext "invoice.pdf").1
               Scenario.today (OsPath.splitext "invoice.pdf").2 n) false;
          EPrint (Versioned "invoice.pdf"
                    (versioned_filename_at (OsPath.splitext "invoice.pdf").1
                       Scenario.today (OsPath.splitext "invoice.pdf").2 n));
          EMove "/home/u/Downloads/invoice (1).pdf"
            (OsPath.join Scenario.downloads "invoice.pdf") false;
          EPrint (Updated "invoice (1).pdf" "invoice.pdf") ].
Proof.
  apply (version_files_replaces_and_archives Scenario.today Scenario.downloads
           "/home/u/Downloads/invoice (1).pdf" "invoice (1).pdf" "invoice.pdf"
           Scenario.disk0 "first" "second").
  - reflexivity.
  - reflexivity.
  - discriminate.
  - reflexivity.
Defined.

(** X10. A promotion without an incumbent is a plain rename: when no file
    is at the base path, [version_files] archives nothing and prints no
    [Versioned] line; the incoming file moves onto the base path and every
    other path is as before. *)
Theorem version_files_without_incumbent
    (timestamp folder_path file_path filename base_filename : string)
    (σ : state) (new : string) :
  let base_path := OsPath.join folder_path base_filename in
  let σ' := (version_files timestamp folder_path file_path filename base_filename σ).2 in
  fs σ !! base_path = None →
  fs σ !! file_path = Some new →
  file_path ∉ refused σ → base_path ∉ refused σ →
  (version_files timestamp folder_path file_path filename base_filename σ).1 = Ok tt
  ∧ fs σ' !! base_path = Some new
  ∧ fs σ' !! file_path = None
  ∧ (∀ p, p ≠ base_path → p ≠ file_path → fs σ' !! p = fs σ !! p)
  ∧ trace σ' = trace σ ++
      [ EMove file_path base_path false; EPrint (Updated filename base_filename) ].
Proof.
  intros base_path σ' Hb Hf Hrf Hrb. subst σ' base_path.
  assert (file_path ≠ OsPath.join folder_path base_filename) as Hne by congruence.
  rewrite version_files_absent by done.
  erewrite bind_Ok by by eapply shutil_move_fresh.
  simpl. split_and!.
  - done.
  - apply lookup_insert_eq.
  - rewrite lookup_insert_ne by done. apply lookup_delete_eq.
  - intros p Hp1 Hp2. by rewrite lookup_insert_ne, lookup_delete_ne.
  - by rewrite <- app_assoc.
Qed.

(** [xa.pdf] moves onto [a.pdf], which did not exist. *)
Lemma version_files_without_incumbent_witness :
  (version_files Scenario.today "/w" "/w/xa.pdf" "xa.pdf" "a.pdf" Overlap.disk).1 = Ok tt
  ∧ fs (version_files Scenario.today "/w" "/w/xa.pdf" "xa.pdf" "a.pdf" Overlap.disk).2
      !! OsPath.join "/w" "a.pdf" = Some "x"
  ∧ fs (version_files Scenario.today "/w" "/w/xa.pdf" "xa.pdf" "a.pdf" Overlap.disk).2
      !! "/w/xa.pdf" = None
  ∧ (∀ p, p ≠ OsPath.join "/w" "a.pdf" → p ≠ "/w/xa.pdf" →
          fs (version_files Scenario.today "/w" "/w/xa.pdf" "xa.pdf" "a.pdf"
                Overlap.disk).2 !! p = fs Overlap.disk !! p)
  ∧ trace (version_files Scenario.today "/w" "/w/xa.pdf" "xa.pdf" "a.pdf"
             Overlap.disk).2
    = trace Overlap.disk ++
        [ EMove "/w/xa.pdf" (OsPath.join "/w" "a.pdf") false;
          EPrint (Updated "xa.pdf" "a.pdf") ].
Proof.
  apply (version_files_without_incumbent Scenario.today "/w" "/w/xa.pdf" "xa.pdf"
           "a.pdf" Overlap.disk "x").
  - reflexivity.
  - reflexivity.
  - vm_compute. set_solver.
  - vm_compute. set_solver.
Defined.

(** X11. A stale event destroys the base slot: when the incoming file is
    no longer there but an incumbent is, and no path is refused,
    [version_files] still archives the incumbent to the first free
    versioned path [n] and only then raises [FileNotFoundError] for the
    incoming path, so that no file is left at the base path (unless the
    incoming path is that very versioned path). *)
Theorem version_files_missing_incoming
    (timestamp folder_path file_path filename base_filename : string)
    (σ : state) (old : string) :
  let base_path := OsPath.join folder_path base_filename in
  let name := (OsPath.splitext base_filename).1 in
  let ext := (OsPath.splitext base_filename).2 in
  fs σ !! base_path = Some old →
  fs σ !! file_path = None →
  refused σ = ∅ →
  ∃ n,
    let versioned_filename := versioned_filename_at name timestamp ext n in
    let versioned_path := versioned_path_at folder_path name timestamp ext n in
    let σ' := archived base_path versioned_path base_filename versioned_filename
                old σ in
    fs σ !! versioned_path = None
    ∧ (∀ j, j < n →
         is_Some (fs σ !! versioned_path_at folder_path name timestamp ext j))
    ∧ fs σ' !! base_path = None
    ∧ fs σ' !! versioned_path = Some old
    ∧ (file_path ≠ versioned_path →
       version_files timestamp folder_path file_path filename base_filename σ
       = (Raise (FileNotFoundError file_path), σ')).
Proof.
  intros base_path name ext Hb Hf Href. subst base_path name ext.
  destruct (first_free folder_path (OsPath.splitext base_filename).1 timestamp
              (OsPath.splitext base_filename).2 (fs σ)) as (n & _ & Hfree & Htaken).
  assert (∀ p, p ∉ refused σ) as Hfree_all by (intros p; rewrite Href; set_solver).
  exists n. split_and!; [done|done|apply fs_archived_base; eauto| |].
  - unfold archived. simpl. apply lookup_insert_eq.
  - intros Hfv.
    rewrite (version_files_present timestamp folder_path file_path filename
               base_filename σ old n Hb Htaken Hfree).
    erewrite bind_Ok; [|by erewrite bind_Ok by by eapply shutil_move_fresh].
    apply bind_Raise, shutil_move_missing.
    unfold archived. simpl.
    rewrite lookup_insert_ne by done.
    destruct (decide (file_path = OsPath.join folder_path base_filename)) as [->|?].
    + apply lookup_delete_eq.
    + by rewrite lookup_delete_ne.
Qed.

(** [invoice (1).pdf] has vanished: [invoice.pdf] is archived all the
    same and the base path is left empty. *)
Lemma version_files_missing_incoming_witness :
  ∃ n,
    fs Scenario.disk_vanished
      !! versioned_path_at Scenario.downloads (OsPath.splitext "invoice.pdf").1
           Scenario.today (OsPath.splitext "invoice.pdf").2 n = None
    ∧ (∀ j, j < n →
         is_Some (fs Scenario.disk_vanished
                    !! versioned_path_at Scenario.downloads
                         (OsPath.splitext "invoice.pdf").1 Scenario.today
                         (OsPath.splitext "invoice.pdf").2 j))
    ∧ fs (archived (OsPath.join Scenario.downloads "invoice.pdf")
            (versioned_path_at Scenario.downloads (OsPath.splitext "invoice.pdf").1
               Scenario.today (OsPath.splitext "invoice.pdf").2 n)
            "invoice.pdf"
            (versioned_filename_at (OsPath.splitext "invoice.pdf").1 Scenario.today
               (OsPath.splitext "invoice.pdf").2 n)
            "first" Scenario.disk_vanished)
        !! OsPath.join Scenario.downloads "invoice.pdf" = None
    ∧ fs (archived (OsPath.join Scenario.downloads "invoice.pdf")
            (versioned_path_at Scenario.downloads (OsPath.splitext "invoice.pdf").1
               Scenario.today (OsPath.splitext "invoice.pdf").2 n)
            "invoice.pdf"
            (versioned_filename_at (OsPath.splitext "invoice.pdf").1 Scenario.today
               (OsPath.splitext "invoice.pdf").2 n)
            "first" Scenario.disk_vanished)
        !! versioned_path_at Scenario.downloads (OsPath.splitext "invoice.pdf").1
             Scenario.today (OsPath.splitext "invoice.pdf").2 n = Some "first"
    ∧ ("/home/u/Downloads/invoice (1).pdf"
         ≠ versioned_path_at Scenario.downloads (OsPath.splitext "invoice.pdf").1
             Scenario.today (OsPath.splitext "invoice.pdf").2 n →
       version_files Scenario.today Scenario.downloads
         "/home/u/Downloads/invoice (1).pdf" "invoice (1).pdf" "invoice.pdf"
         Scenario.disk_vanished
       = (Raise (FileNotFoundError "/home/u/Downloads/invoice (1).pdf"),
          archived (OsPath.join Scenario.downloads "invoice.pdf")
            (versioned_path_at Scenario.downloads (OsPath.splitext "invoice.pdf").1
               Scenario.today (OsPath.splitext "invoice.pdf").2 n)
            "invoice.pdf"
            (versioned_filename_at (OsPath.splitext "invoice.pdf").1 Scenario.today
               (OsPath.splitext "invoice.pdf").2 n)
            "first" Scenario.disk_vanished)).
Proof.
  apply (version_files_missing_incoming Scenario.today Scenario.downloads
           "/home/u/Downloads/invoice (1).pdf" "invoice (1).pdf" "invoice.pdf"
           Scenario.disk_vanished "first").
  - reflexivity.
  - reflexivity.
  - reflexivity.
Defined.

(** X12. [version_files] touches only its own files: a file that exists at
    a path other than the base path and the incoming path is still there,
    with the same content, however the call ends. *)
Theorem version_files_leaves_other_files
    (timestamp folder_path file_path filename base_filename : string)
    (σ : state) (p content : string) :
  p ≠ OsPath.join folder_path base_filename →
  p ≠ file_path →
  fs σ !! p = Some content →
  fs (version_files timestamp folder_path file_path filename base_filename σ).2 !! p
  = Some content.
Proof.
  intros Hpb Hpf Hp.
  assert (∀ σ0 src dst c line,
            fs σ0 !! p = Some content → p ≠ src → fs σ0 !! dst = None →
            fs (emit (EPrint line)
                  (emit (EMove src dst false)
                     (set_fs (<[dst := c]> (delete src (fs σ0))) σ0))) !! p
            = Some content) as Hmove.
  { intros σ0 src dst c line H0 Hs Hd. simpl.
    rewrite lookup_insert_ne by congruence. by rewrite lookup_delete_ne. }
  assert (∀ σ0 src dst c,
            fs σ0 !! p = Some content → fs σ0 !! dst = None →
            fs (copied src dst c σ0) !! p = Some content) as Hcopy.
  { intros σ0 src dst c H0 Hd. rewrite fs_copied, lookup_insert_ne; [done|congruence]. }
  assert (∀ σ0,
            fs σ0 !! p = Some content →
            fs σ0 !! OsPath.join folder_path base_filename = None →
            fs ((shutil_move file_path (OsPath.join folder_path base_filename);;
                 print (Updated filename base_filename)) σ0).2 !! p
            = Some content) as Hpromote.
  { intros σ0 H0 Hb.
    rewrite (promote_step folder_path file_path filename base_filename σ0 Hb).
    destruct (fs σ0 !! file_path) as [c|] eqn:Hf; [|done].
    destruct (decide (_ ∈ refused σ0)); [done|].
    destruct (decide (_ ∈ refused σ0)); cbn [snd].
    - by apply Hcopy.
    - by apply Hmove. }
  destruct (fs σ !! OsPath.join folder_path base_filename) as [old|] eqn:Hb.
  - destruct (first_free folder_path (OsPath.splitext base_filename).1 timestamp
                (OsPath.splitext base_filename).2 (fs σ)) as (n & _ & Hfree & Htaken).
    rewrite (version_files_incumbent timestamp folder_path file_path filename
               base_filename σ old n Hb Htaken Hfree).
    destruct (decide (_ ∈ refused σ)); [done|].
    destruct (decide (_ ∈ refused σ)); cbn [snd].
    + by apply Hcopy.
    + apply Hpromote; [by apply Hmove|]. apply fs_archived_base; eauto.
  - rewrite version_files_absent by done. by apply Hpromote.
Qed.

(** The archived [report_v2024-01-01.pdf] is untouched by a promotion to
    [report.pdf], whichever way that promotion ends. *)
Lemma version_files_leaves_other_files_witness :
  fs (version_files Scenario.today Scenario.downloads
        "/home/u/Downloads/report (1).pdf" "report (1).pdf" "report.pdf"
        Scenario.disk_misc).2 !! "/home/u/Downloads/report_v2024-01-01.pdf"
  = Some "r1".
Proof.
  apply (version_files_leaves_other_files Scenario.today Scenario.downloads
           "/home/u/Downloads/report (1).pdf" "report (1).pdf" "report.pdf"
           Scenario.disk_misc "/home/u/Downloads/report_v2024-01-01.pdf" "r1").
  - discriminate.
  - discriminate.
  - reflexivity.
Defined.

(** * Events the handler lets pass *)

(** X13. Watching is not recursive and not global: an event for a file
    whose directory is, after normalisation, none of the configured
    folders moves nothing and prints nothing. *)
Theorem events_outside_watched_folders_ignored
    (env : OsPath.os_env) (self : handler) (current_time : float)
    (timestamp file_path : string) (σ : state) :
  let run := process_file_event env self current_time timestamp file_path in
  (∀ folder_config, folder_config ∈ Cfg.folders (config self) →
     OsPath.normpath (OsPath.dirname file_path)
     ≠ OsPath.normpath (OsPath.expanduser env (Cfg.path folder_config))) →
  (run σ).1 = Ok tt ∧ fs (run σ).2 = fs σ ∧ trace (run σ).2 = trace σ.
Proof.
  intros run Hout. subst run.
  destruct (process_file_event_cases env self current_time timestamp file_path σ)
    as [->| ->]; [done|].
  unfold after_debounce. destruct (_ || _); [done|].
  rewrite for_each_skip; [done|].
  intros fc Hfc. by rewrite decide_False by by apply Hout.
Qed.

(** A variant of [invoice.pdf] in a subfolder of Downloads is left alone. *)
Lemma events_outside_watched_folders_ignored_witness :
  (process_file_event Scenario.env Scenario.self 100%float Scenario.today
     "/home/u/Downloads/old/invoice (1).pdf" Scenario.disk0).1 = Ok tt
  ∧ fs (process_file_event Scenario.env Scenario.self 100%float Scenario.today
          "/home/u/Downloads/old/invoice (1).pdf" Scenario.disk0).2
    = fs Scenario.disk0
  ∧ trace (process_file_event Scenario.env Scenario.self 100%float Scenario.today
             "/home/u/Downloads/old/invoice (1).pdf" Scenario.disk0).2
    = trace Scenario.disk0.
Proof.
  apply (events_outside_watched_folders_ignored Scenario.env Scenario.self 100%float
           Scenario.today "/home/u/Downloads/old/invoice (1).pdf" Scenario.disk0).
  intros fc Hfc%list_elem_of_In. vm_compute in Hfc.
  destruct Hfc as [<-|[]]. vm_compute. discriminate.
Defined.

(** X14. The debounce dict only grows, one path at a time: handling an
    event for a path leaves the entry of every other path as it was and
    removes no entry, whether the call returns or raises. *)
Theorem events_touch_only_their_debounce_entry
    (env : OsPath.os_env) (self : handler) (current_time : float)
    (timestamp file_path : string) (σ : state) :
  let σ' := (process_file_event env self current_time timestamp file_path σ).2 in
  (∀ p, p ≠ file_path → last_processed σ' !! p = last_processed σ !! p)
  ∧ (∀ p, is_Some (last_processed σ !! p) → is_Some (last_processed σ' !! p)).
Proof.
  intros σ'. subst σ'.
  destruct (process_file_event_cases env self current_time timestamp file_path σ)
    as [->| ->]; [done|].
  rewrite klp_after_debounce. simpl. split.
  - intros p Hp. by rewrite lookup_insert_ne.
  - intros p Hp. destruct (decide (p = file_path)) as [->|Hne].
    + rewrite lookup_insert_eq. eauto.
    + by rewrite lookup_insert_ne.
Qed.

Section dispatching.
Import PyStr OsPath.

(** A loop in which one element alone does something. *)
Lemma for_each_one {A} (l1 l2 : list A) (x : A) (body : A → M unit) σ :
  (∀ y, y ∈ l1 ++ l2 → body y = ret tt) →
  for_each (l1 ++ x :: l2) body σ = body x σ.
Proof.
  intros Hskip. induction l1 as [|y l1 IH]; simpl.
  - unfold_M. destruct (body x σ) as [[[]|e|] σ']; [|done..].
    apply for_each_skip. intros y Hy. by rewrite Hskip.
  - rewrite (Hskip y) by (simpl; left).
    erewrite bind_Ok by reflexivity. apply IH.
    intros z Hz. apply Hskip. simpl. by right.
Qed.

End dispatching.

(** X15. From the event to the engine: for a file event that passes the
    debouncer and the temporary-file filter, in the one configured folder
    its directory normalises to, whose name is a numbered or copied
    variant of a base filename [f] of that folder (no version marker, no
    pattern of an earlier base filename matching), [on_created] is exactly
    one call of [version_files] for [f], run after the debounce entry has
    been recorded. *)
Theorem on_created_runs_one_promotion
    (env : OsPath.os_env) (self : handler) (current_time : float)
    (timestamp : string) (event : event)
    (before after : list Cfg.folder_config) (folder_config : Cfg.folder_config)
    (earlier later : list Cfg.base_config) (f : string) (σ : state) :
  let file_path := src_path event in
  let v := OsPath.basename file_path in
  let folder_path := OsPath.expanduser env (Cfg.path folder_config) in
  is_directory event = false →
  match last_processed σ !! file_path with
  | Some last => PrimFloat.ltb (PrimFloat.sub current_time last) (cooldown self)
  | None => false
  end = false →
  PyStr.startswith v "." || PyStr.endswith v ".crdownload"
    || PyStr.endswith v ".download" = false →
  Cfg.folders (config self) = before ++ folder_config :: after →
  OsPath.normpath (OsPath.dirname file_path) = OsPath.normpath folder_path →
  (∀ other, other ∈ before ++ after →
     OsPath.normpath (OsPath.dirname file_path)
     ≠ OsPath.normpath (OsPath.expanduser env (Cfg.path other))) →
  file_patterns self !! folder_path
    = Some (folder_patterns (earlier ++ {| Cfg.name := f |} :: later)) →
  numbered_variant f v →
  Re.search version_marker v = false →
  (∀ q, q ∈ folder_patterns earlier → Re.pmatch q.1 v = false) →
  on_created env self current_time timestamp event σ
  = version_files timestamp folder_path file_path v f
      (set_last_processed (<[file_path := current_time]> (last_processed σ)) σ).
Proof.
  intros file_path v folder_path Hdir Hdeb Htemp Hfolders Hnorm Hothers Hpats
    Hv Hmark Hearlier.
  subst file_path v folder_path.
  destruct (numbered_variant_matches f _ Hv) as [Hmatch Hne].
  unfold on_created. rewrite Hdir. simpl.
  rewrite process_file_event_accepted by done.
  unfold after_debounce. rewrite Htemp, Hfolders.
  rewrite for_each_one.
  - rewrite decide_True by done.
    unfold check_file_match. rewrite Hmark, Hpats. simpl.
    rewrite folder_patterns_split, check_patterns_skip by done.
    rewrite (check_patterns_same_base _ _ _ _ f) by (done || apply patterns_for_base).
    by rewrite decide_True.
  - intros other Hother. by rewrite decide_False by by apply Hothers.
Qed.

(** The browser's [invoice (2).pdf] under the default configuration. *)
Lemma on_created_runs_one_promotion_witness :
  on_created Scenario.env Scenario.self 100%float Scenario.today
    (Scenario.created "/home/u/Downloads/invoice (2).pdf") Scenario.disk0
  = version_files Scenario.today (OsPath.expanduser Scenario.env "~/Downloads")
      "/home/u/Downloads/invoice (2).pdf" "invoice (2).pdf" "invoice.pdf"
      (set_last_processed
         (<["/home/u/Downloads/invoice (2).pdf" := 100%float]>
            (last_processed Scenario.disk0)) Scenario.disk0).
Proof.
  apply (on_created_runs_one_promotion Scenario.env Scenario.self 100%float
           Scenario.today (Scenario.created "/home/u/Downloads/invoice (2).pdf")
           [] []
           {| Cfg.path := "~/Downloads";
              Cfg.base_filenames :=
                [ {| Cfg.name := "statement.pdf" |}; {| Cfg.name := "invoice.pdf" |};
                  {| Cfg.name := "report.pdf" |} ] |}
           [ {| Cfg.name := "statement.pdf" |} ] [ {| Cfg.name := "report.pdf" |} ]
           "invoice.pdf" Scenario.disk0).
  - reflexivity.
  - reflexivity.
  - reflexivity.
  - reflexivity.
  - reflexivity.
  - intros other Hother. by apply elem_of_nil in Hother.
  - reflexivity.
  - left. exists "2". split_and!; [discriminate|reflexivity|].
    right. left. reflexivity.
  - reflexivity.
  - intros q Hq%list_elem_of_In. vm_compute in Hq.
    destruct Hq as [<-|[<-|[<-|[<-|[<-|[]]]]]]; reflexivity.
Defined.

(** * Archived names are never taken for variants *)

(** What [strftime("%Y-%m-%d")] yields for a year of four digits:
    [\d{4}-\d{2}-\d{2}]. *)
Definition date_stamp : Re.regex :=
  Re.RRep 4 Re.CDigit ⋅ Re.RLit "-" ⋅ Re.RRep 2 Re.CDigit ⋅ Re.RLit "-"
    ⋅ Re.RRep 2 Re.CDigit.

Section markers.
Import PyStr Re.

Lemma matches_rep_iff n c s rest :
  matches (RRep n c) s rest
  ↔ ∃ w, length w = n ∧ all_in c w = true ∧ s = w +:+ rest.
Proof.
  split.
  - intros H. remember (RRep n c) as r eqn:Hr. revert n Hr.
    induction H as [| | | | |c' s|n' c' a s rest Hc _ IH| | |]; intros n Hr;
      try discriminate; injection Hr as <- <-.
    + by exists "".
    + destruct (IH _ eq_refl) as (w & Hl & Hw & ->).
      exists (String a w). simpl. by rewrite Hc, Hw, Hl.
  - intros (w & <- & Hw & ->). induction w as [|a w IH]; [constructor|].
    simpl in Hw. apply andb_true_iff in Hw as [Ha Hw].
    rewrite str_app_cons. simpl. constructor; auto.
Qed.

(** [re.search] finds a match that starts anywhere. *)
Lemma search_app r pre s : pmatch r s = true → search r (pre +:+ s) = true.
Proof.
  intros H. induction pre as [|a pre IH].
  - rewrite str_app_nil_l. destruct s; simpl; by rewrite H.
  - rewrite str_app_cons. simpl. by rewrite IH, orb_true_r.
Qed.

(** After [_v] and a date stamp, whatever follows, the marker matches. *)
Lemma version_marker_matches timestamp tail :
  matches date_stamp timestamp "" →
  pmatch version_marker ("_v" +:+ timestamp +:+ tail) = true.
Proof.
  intros H. unfold date_stamp in H. invert_matches.
  repeat match goal with
  | H : matches (RRep _ _) _ _ |- _ => apply matches_rep_iff in H as (? & ? & ? & ?)
  end; subst.
  apply pmatch_matches. exists tail. unfold version_marker.
  rewrite !str_app_assoc, str_app_nil_l.
  repeat first
    [ apply matches_cat_iff; eexists; split
    | apply matches_lit_iff; reflexivity
    | apply matches_rep_iff; eexists; split_and!; cycle 2;
        [reflexivity|eassumption|eassumption] ].
Qed.

Lemma versioned_filename_at_marked name timestamp ext n :
  matches date_stamp timestamp "" →
  search version_marker (versioned_filename_at name timestamp ext n) = true.
Proof.
  intros H. unfold versioned_filename_at.
  destruct n; apply search_app; by apply version_marker_matches.
Qed.

End markers.

(** X16. The engine's own output is never taken for a variant: when the
    timestamp is a date stamp [dddd-dd-dd], every versioned filename
    [version_files] can produce contains the version marker, so an event
    for the archived file makes the resolver return at once, for any
    handler and folder. *)
Theorem archived_names_are_never_reprocessed
    (self : handler) (timestamp name ext : string) (n : nat)
    (timestamp' file_path folder_path : string) (σ : state) :
  Re.matches date_stamp timestamp "" →
  Re.search version_marker (versioned_filename_at name timestamp ext n) = true
  ∧ check_file_match self timestamp' file_path
      (versioned_filename_at name timestamp ext n) folder_path σ = (Ok tt, σ).
Proof.
  intros Hdate.
  pose proof (versioned_filename_at_marked name timestamp ext n Hdate) as Hmark.
  split; [done|]. unfold check_file_match. by rewrite Hmark.
Qed.

(** [invoice_v2024-05-01_3.pdf], the fourth archive of a day, is ignored. *)
Lemma archived_names_are_never_reprocessed_witness :
  Re.search version_marker (versioned_filename_at "invoice" "2024-05-01" ".pdf" 3) = true
  ∧ check_file_match Scenario.self "2024-05-02"
      "/home/u/Downloads/invoice_v2024-05-01_3.pdf"
      (versioned_filename_at "invoice" "2024-05-01" ".pdf" 3)
      Scenario.downloads Scenario.disk0 = (Ok tt, Scenario.disk0).
Proof.
  apply (archived_names_are_never_reprocessed Scenario.self "2024-05-01" "invoice"
           ".pdf" 3 "2024-05-02" "/home/u/Downloads/invoice_v2024-05-01_3.pdf"
           Scenario.downloads Scenario.disk0).
  apply rests_matches. vm_compute. by left.
Defined.

(** * The default configuration *)

(** [s.count(c)] for a single character *)
Fixpoint count_char (c : ascii) (s : string) : nat :=
  match s with
  | EmptyString => 0
  | String a s' => (if decide (a = c) then 1 else 0) + count_char c s'
  end.

Section counting.
Import PyStr OsPath Re.

Lemma count_char_app c s1 s2 :
  count_char c (s1 +:+ s2) = count_char c s1 + count_char c s2.
Proof.
  induction s1 as [|a s1 IH]; [done|].
  rewrite str_app_cons. simpl. rewrite IH. lia.
Qed.

Lemma count_char_cons c a s :
  count_char c (String a s) = count_char c (String a "") + count_char c s.
Proof. simpl. lia. Qed.

Lemma count_char_digits c d :
  all_in CDigit d = true → is_digit c = false → count_char c d = 0.
Proof.
  intros Hd Hc. induction d as [|a d IH]; [done|].
  simpl in *. apply andb_true_iff in Hd as [Ha Hd].
  rewrite IH by done. case_decide; [congruence|done].
Qed.

(** A filename of the catch-all's shape holds every character of the name
    part. *)
Lemma looks_like_count c name ext v :
  looks_like name ext v → count_char c name ≤ count_char c v.
Proof.
  intros (pre & mid & tail & -> & _). rewrite !count_char_app. lia.
Qed.

(** A numbered or copied variant holds the characters of the base
    filename, digits, and at most one of each character of [ ()copy_-]. *)
Lemma numbered_variant_count c f v :
  numbered_variant f v → is_digit c = false →
  count_char c v ≤ count_char c f + count_char c " ()copy_-".
Proof.
  intros Hv Hc.
  assert (count_char c (splitext f).1 + count_char c (splitext f).2 = count_char c f)
    as Hf by by rewrite <- count_char_app, splitext_halves.
  change " ()copy_-" with (" " +:+ "(" +:+ ")" +:+ "copy" +:+ "_" +:+ "-").
  rewrite !count_char_app.
  destruct Hv as [(d & _ & Hd & [->|[->|(a & Ha & ->)]])|(a & d & Ha & Hd & ->)];
    try (rewrite !elem_of_cons, elem_of_nil in Ha; destruct Ha as [->|[->|[->|[]]]]);
    repeat first [rewrite count_char_app | rewrite (count_char_cons c _ (String _ _))
                 | rewrite (count_char_cons c _ (_ +:+ _))];
    rewrite ?(count_char_digits c d) by done; lia.
Qed.

(** [re.search] succeeds only where [pattern.match] does, somewhere. *)
Lemma search_inv r v :
  search r v = true → ∃ pre s, v = pre +:+ s ∧ pmatch r s = true.
Proof.
  induction v as [|a v IH]; simpl.
  - rewrite orb_false_r. intros H. by exists "", "".
  - intros [H|H]%orb_true_iff.
    + by exists "", (String a v).
    + destruct (IH H) as (pre & s & -> & Hs). by exists (String a pre), s.
Qed.

(** A version marker holds two hyphens. *)
Lemma version_marker_count v :
  search version_marker v = true → 2 ≤ count_char "-" v.
Proof.
  intros (pre & s & -> & (rest & H)%pmatch_matches)%search_inv.
  unfold version_marker in H.
  repeat first
    [ progress invert_matches
    | match goal with
      | H : matches (RRep _ _) _ _ |- _ =>
          apply matches_rep_iff in H as (? & ? & ? & ?)
      end ].
  subst. rewrite !count_char_app. simpl. lia.
Qed.

End counting.

(** X17. Base filenames that differ by a letter never shadow each other.
    Let [f] be a configured base filename without a hyphen such that every
    base filename configured before it has, in its name part, some
    non-digit character more often than [f] and the decoration [ ()copy_-]
    together.  Then every numbered or copied variant of [f] is promoted to
    [f], with no further condition, and [f] itself triggers nothing. *)
Theorem distinct_names_resolve_unambiguously
    (self : handler) (timestamp file_path folder_path : string)
    (earlier later : list Cfg.base_config) (f : string) :
  file_patterns self !! folder_path
    = Some (folder_patterns (earlier ++ {| Cfg.name := f |} :: later)) →
  count_char "-" f = 0 →
  (∀ base_config, base_config ∈ earlier →
     ∃ c, Re.is_digit c = false
          ∧ count_char c f + count_char c " ()copy_-"
            < count_char c (OsPath.splitext (Cfg.name base_config)).1) →
  (∀ v, numbered_variant f v →
        check_file_match self timestamp file_path v folder_path
        = version_files timestamp folder_path file_path v f)
  ∧ (∀ σ, check_file_match self timestamp file_path f folder_path σ = (Ok tt, σ)).
Proof.
  intros Hpats Hhyphen Hdistinct.
  assert (∀ v, (∀ c, Re.is_digit c = false →
                     count_char c v ≤ count_char c f + count_char c " ()copy_-") →
               ∀ q, q ∈ folder_patterns earlier → Re.pmatch q.1 v = false)
    as Hearlier.
  { intros v Hcount q (bc & Hin & Hq)%elem_of_folder_patterns.
    destruct (Re.pmatch q.1 v) eqn:Hm; [|done].
    destruct (Hdistinct bc Hin) as (c & Hc & Hlt).
    assert (looks_like (OsPath.splitext (Cfg.name bc)).1
              (OsPath.splitext (Cfg.name bc)).2 v) as Hlike
      by (apply some_pattern_matches_iff; eauto).
    apply (looks_like_count c) in Hlike. specialize (Hcount c Hc). lia. }
  split.
  - intros v Hv.
    destruct (numbered_variant_matches f v Hv) as [Hmatch Hne].
    assert (Re.search version_marker v = false) as Hmark.
    { destruct (Re.search version_marker v) eqn:Hs; [|done].
      apply version_marker_count in Hs.
      pose proof (numbered_variant_count "-" f v Hv eq_refl) as Hle.
      rewrite Hhyphen in Hle. simpl in Hle. lia. }
    unfold check_file_match. rewrite Hmark, Hpats. simpl.
    rewrite folder_patterns_split, check_patterns_skip
      by (apply Hearlier; intros c Hc; by apply numbered_variant_count).
    rewrite (check_patterns_same_base _ _ _ _ f) by (done || apply patterns_for_base).
    by rewrite decide_True.
  - intros σ. unfold check_file_match.
    destruct (Re.search version_marker f); [done|]. rewrite Hpats. simpl.
    rewrite folder_patterns_split, check_patterns_skip
      by (apply Hearlier; intros c Hc; lia).
    rewrite (check_patterns_same_base _ _ _ _ f).
    + by rewrite decide_False by auto.
    + apply patterns_for_base.
    + apply some_pattern_matches_iff.
      exists "", "", "". rewrite !str_app_nil_l, str_app_nil_r, splitext_halves.
      split_and!; auto using at_end_nil.
Qed.

(** The default configuration: after [statement.pdf] and [invoice.pdf],
    every numbered or copied variant of [report.pdf] is promoted to
    [report.pdf], and [report.pdf] itself is left alone. *)
Lemma distinct_names_resolve_unambiguously_witness :
  (∀ v, numbered_variant "report.pdf" v →
        check_file_match Scenario.self Scenario.today "/home/u/Downloads/x" v
          Scenario.downloads
        = version_files Scenario.today Scenario.downloads "/home/u/Downloads/x" v
            "report.pdf")
  ∧ (∀ σ, check_file_match Scenario.self Scenario.today "/home/u/Downloads/x"
            "report.pdf" Scenario.downloads σ = (Ok tt, σ)).
Proof.
  apply (distinct_names_resolve_unambiguously Scenario.self Scenario.today
           "/home/u/Downloads/x" Scenario.downloads
           [ {| Cfg.name := "statement.pdf" |}; {| Cfg.name := "invoice.pdf" |} ] []
           "report.pdf").
  - reflexivity.
  - reflexivity.
  - intros bc Hbc. rewrite !elem_of_cons, elem_of_nil in Hbc.
    destruct Hbc as [->|[->|[]]].
    + exists "s"%char. split; [reflexivity|]. vm_compute. lia.
    + exists "i"%char. split; [reflexivity|]. vm_compute. lia.
Defined.

(** X18. When the operating system refuses to move the incumbent (the
    base path is refused), [version_files] raises before any promote
    attempt and prints nothing.  With [n] the first free versioned index:
    if the versioned path is refused too, the error names it and nothing
    has changed; otherwise the error names the base path, and the copy that
    [shutil.move] made before failing to remove the incumbent is left at
    the versioned path.  Either way the incumbent is still at the base
    path, and every path other than the versioned one, the incoming
    file's among them, is as before. *)
Theorem version_files_refused_incumbent
    (timestamp folder_path file_path filename base_filename : string)
    (σ : state) (old : string) :
  let base_path := OsPath.join folder_path base_filename in
  let name := (OsPath.splitext base_filename).1 in
  let ext := (OsPath.splitext base_filename).2 in
  let run := version_files timestamp folder_path file_path filename base_filename in
  fs σ !! base_path = Some old →
  base_path ∈ refused σ →
  ∃ n,
    let versioned_path := versioned_path_at folder_path name timestamp ext n in
    fs σ !! versioned_path = None
    ∧ (∀ j, j < n →
         is_Some (fs σ !! versioned_path_at folder_path name timestamp ext j))
    ∧ (versioned_path ∈ refused σ →
       run σ = (Raise (PermissionError versioned_path), σ))
    ∧ (versioned_path ∉ refused σ →
       run σ = (Raise (PermissionError base_path),
                copied base_path versioned_path old σ))
    ∧ fs (run σ).2 !! base_path = Some old
    ∧ (∀ p, p ≠ versioned_path → fs (run σ).2 !! p = fs σ !! p)
    ∧ (trace (run σ).2 = trace σ
       ∨ trace (run σ).2 = trace σ ++ [ECopy base_path versioned_path false]).
Proof.
  intros base_path name ext run Hb Href.
  destruct (first_free folder_path name timestamp ext (fs σ))
    as (n & _ & Hfree & Htaken).
  exists n. intros vp.
  pose proof (version_files_incumbent timestamp folder_path file_path filename
                base_filename σ old n Hb Htaken Hfree) as Hrun.
  fold name ext base_path in Hrun. fold vp in Hrun. fold run in Hrun.
  rewrite (decide_True (P := base_path ∈ refused σ)) in Hrun by done.
  split_and!; [done|done|..].
  - intros ?. by rewrite Hrun, decide_True.
  - intros ?. by rewrite Hrun, decide_False.
  - rewrite Hrun. destruct (decide (vp ∈ refused σ)); [done|]. cbn [snd].
    rewrite fs_copied, lookup_insert_ne; [done|congruence].
  - intros p Hp. rewrite Hrun. destruct (decide (vp ∈ refused σ)); [done|]. cbn [snd].
    by rewrite fs_copied, lookup_insert_ne.
  - rewrite Hrun. destruct (decide (vp ∈ refused σ)); [by left|]. by right.
Qed.

(** While [invoice.pdf] is held open, [invoice (1).pdf] is not promoted,
    and a copy of [invoice.pdf] is left at [invoice_v2024-05-01.pdf]. *)
Lemma version_files_refused_incumbent_witness :
  version_files Scenario.today Scenario.downloads
    "/home/u/Downloads/invoice (1).pdf" "invoice (1).pdf" "invoice.pdf"
    Scenario.disk_locked
  = (Raise (PermissionError "/home/u/Downloads/invoice.pdf"),
     copied "/home/u/Downloads/invoice.pdf"
       "/home/u/Downloads/invoice_v2024-05-01.pdf" "first" Scenario.disk_locked).
Proof.
  destruct (version_files_refused_incumbent Scenario.today Scenario.downloads
              "/home/u/Downloads/invoice (1).pdf" "invoice (1).pdf" "invoice.pdf"
              Scenario.disk_locked "first")
    as (n & _ & Htaken & _ & Hcopy & _).
  - reflexivity.
  - vm_compute. set_solver.
  - destruct n as [|n].
    + apply Hcopy. vm_compute. set_solver.
    + exfalso. destruct (Htaken 0) as [c Hc]; [lia|]. discriminate Hc.
Defined.
